(** * haveibeenpwned sensor: a shallow embedding of
      [homeassistant/components/haveibeenpwned/sensor.py]

    The fetcher object [HaveIBeenPwnedData], its throttled [update], the
    round-robin cursor and the per-email sensor entities are modelled as
    state-passing functions over an explicit store.  Python exceptions are
    outcomes of the computation, so that the store left behind by a raising
    call can still be observed. *)

From Stdlib Require Import ZArith Ascii Sorting.Sorted Sorting.Permutation.
From stdpp Require Import gmap strings list pretty.

Local Open Scope string_scope.

(** ** Python runtime: outcomes, exceptions and a state monad *)

Module Py.

(** The exception classes the modelled code can raise. *)
Inductive exn : Type :=
| RequestException          (* requests.exceptions.RequestException and subclasses *)
| UnboundLocalError (var : string)
| JSONDecodeError           (* raised by [Response.json] on an undecodable body *)
| ZeroDivisionError
| IndexError
| AttributeError.

Inductive outcome (A : Type) : Type :=
| Return (a : A)
| Raise (e : exn).
Arguments Return {A} a.
Arguments Raise {A} e.

(** A computation over a store [S]: the store is returned in both cases. *)
Definition M (S A : Type) : Type := S -> outcome A * S.

Definition ret {S A} (a : A) : M S A := fun s => (Return a, s).

Definition raise {S A} (e : exn) : M S A := fun s => (Raise e, s).

Definition bind {S A B} (c : M S A) (k : A -> M S B) : M S B :=
  fun s =>
    match c s with
    | (Return a, s') => k a s'
    | (Raise e, s') => (Raise e, s')
    end.

Definition get {S} : M S S := fun s => (Return s, s).

Definition modify {S} (f : S -> S) : M S unit := fun s => (Return tt, f s).

(** [try: c except catches: h]. *)
Definition try_except {S A} (c : M S A) (catches : exn -> bool) (h : M S A)
  : M S A :=
  fun s =>
    match c s with
    | (Return a, s') => (Return a, s')
    | (Raise e, s') => if catches e then h s' else (Raise e, s')
    end.

(** Run a computation on the first component of a pair of stores. *)
Definition lift_fst {S T A} (c : M S A) : M (S * T) A :=
  fun st =>
    match c (fst st) with
    | (r, s') => (r, (s', snd st))
    end.

(** Run a computation on the second component of a pair of stores. *)
Definition lift_snd {S T A} (c : M T A) : M (S * T) A :=
  fun st =>
    match c (snd st) with
    | (r, t') => (r, (fst st, t'))
    end.

End Py.

Import Py.

Declare Scope py_scope.
Delimit Scope py_scope with py.
Notation "x <- c ;; k" := (bind c (fun x => k))
  (at level 100, c at next level, right associativity) : py_scope.
Notation "c ;; k" := (bind c (fun _ => k))
  (at level 100, right associativity) : py_scope.
Local Open Scope py_scope.

(** ** Data model *)

(** One element of the JSON array answered by the service.  Only the two
    keys the component reads are kept. *)
Record BreachRecord : Type := {
  Title : string;
  AddedDate : string
}.

Global Instance BreachRecord_eq_dec : EqDecision BreachRecord.
Proof. solve_decision. Defined.

(** Module-level constants of [sensor.py]. *)
Definition ATTRIBUTION : string := "Data provided by Have I Been Pwned (HIBP)".
Definition HA_USER_AGENT : string :=
  "Home Assistant HaveIBeenPwned Sensor Component".
Definition URL : string := "https://haveibeenpwned.com/api/v3/breachedaccount/".

(** [datetime.timedelta], in microseconds. *)
Definition timedelta_seconds (n : Z) : Z := (n * 1000000)%Z.
Definition timedelta_minutes (n : Z) : Z := timedelta_seconds (n * 60).

Definition MIN_TIME_BETWEEN_FORCED_UPDATES : Z := timedelta_seconds 5.
Definition MIN_TIME_BETWEEN_UPDATES : Z := timedelta_minutes 15.

(** [http.HTTPStatus] members compared against [req.status_code]. *)
Definition HTTPStatus_OK : nat := 200.
Definition HTTPStatus_NOT_FOUND : nat := 404.

(** *** The HTTP client *)

Inductive http_method : Type := GET.

(** The arguments of one [requests.get] call. *)
Record request : Type := {
  req_method : http_method;
  req_url : string;
  req_params : list (string * string);
  req_headers : list (string * string);
  req_allow_redirects : bool;
  req_timeout : nat
}.

(** What the component reads of a [requests.Response]: [json] is the result
    of [Response.json()], [None] when decoding the body raises.  Bodies that
    decode are arrays of objects carrying both [Title] and [AddedDate]. *)
Record response : Type := {
  status_code : nat;
  text : string;
  json : option (list BreachRecord);
  request_of : request
}.

(** The network's answer to the request of one fetch: either [requests.get]
    raises a [RequestException] (connection error, timeout, malformed
    response), or it returns a response with the given status, body text and
    decoded body. *)
Inductive http_outcome : Type :=
| Fails
| Responds (status : nat) (body : string) (decoded : option (list BreachRecord)).

(** *** Logging *)

Inductive level : Type := DEBUG | ERROR.

Inductive logarg : Type :=
| ArgStr (s : string)
| ArgInt (n : nat)
| ArgJson (j : list BreachRecord)      (* [json.dumps(obj, indent=2)] *)
| ArgRequestUrl (r : request)          (* [req.request.url] *)
| ArgRequestHeaders (r : request).     (* [req.request.headers] *)

Record log_record : Type := {
  lr_level : level;
  lr_msg : string;
  lr_args : list logarg
}.

(** Effects that leave the fetcher object: log records and HTTP requests,
    most recent first. *)
Record world : Type := {
  log : list log_record;
  sent : list request
}.

Definition world0 : world := {| log := []; sent := [] |}.

(** *** The fetcher object *)

Record HaveIBeenPwnedData : Type := {
  _email_count : nat;
  _current_index : nat;
  data : gmap string (list BreachRecord);
  _email : string;
  _emails : list string;
  _api_key : string
}.

(** The store of the fetcher's methods: the object and the outside world. *)
Abbreviation store := (HaveIBeenPwnedData * world)%type.

(** Local variables of [update]: [req] is unbound until [requests.get]
    has returned. *)
Record frame : Type := { req : option response }.

Definition frame0 : frame := {| req := None |}.

(** ** Primitives *)

Definition entry (lv : level) (msg : string) (args : list logarg)
  : log_record :=
  {| lr_level := lv; lr_msg := msg; lr_args := args |}.

Definition logged (e : log_record) (w : world) : world :=
  {| log := e :: log w; sent := sent w |}.

Definition _LOGGER (lv : level) (msg : string) (args : list logarg)
  : M world unit :=
  modify (logged (entry lv msg args)).

(** [requests.get(url, params=..., headers=..., allow_redirects=...,
    timeout=...)]: the call is recorded, then the network decides. *)
Definition requests_get (url : string) (params headers : list (string * string))
    (allow_redirects : bool) (timeout : nat) (net : http_outcome)
  : M world response :=
  let rq := {| req_method := GET; req_url := url; req_params := params;
               req_headers := headers;
               req_allow_redirects := allow_redirects;
               req_timeout := timeout |} in
  modify (fun w => {| log := log w; sent := rq :: sent w |}) ;;
  match net with
  | Fails => raise RequestException
  | Responds st body dec =>
      ret {| status_code := st; text := body; json := dec; request_of := rq |}
  end.

(** [l[i]] for a non-negative index. *)
Definition subscript {S A} (l : list A) (i : nat) : M S A :=
  match l !! i with
  | Some x => ret x
  | None => raise IndexError
  end.

(** [a % b] on non-negative integers. *)
Definition py_mod {S} (a b : nat) : M S nat :=
  match b with
  | O => raise ZeroDivisionError
  | _ => ret (a mod b)
  end.

(** [Response.json()]. *)
Definition json_method {S} (r : response) : M S (list BreachRecord) :=
  match json r with
  | Some j => ret j
  | None => raise JSONDecodeError
  end.

(** [sorted(l, key=key, reverse=True)]: a stable sort into descending key
    order; Python compares [str] keys code point by code point. *)
Fixpoint insert_reverse {A} (key : A -> string) (x : A) (l : list A) : list A :=
  match l with
  | [] => [x]
  | y :: l' =>
      if String.ltb (key x) (key y) then y :: insert_reverse key x l'
      else x :: l
  end.

Definition sorted_reverse {A} (key : A -> string) (l : list A) : list A :=
  foldr (insert_reverse key) [] l.

Definition is_RequestException (e : exn) : bool :=
  match e with RequestException => true | _ => false end.

(** ** class HaveIBeenPwnedData *)

(** Accessors on the store of a method. *)
Definition self_ : M store HaveIBeenPwnedData := lift_fst get.
Definition logger (lv : level) (msg : string) (args : list logarg)
  : M store unit := lift_snd (_LOGGER lv msg args).

Definition set__current_index (i : nat) : M store unit :=
  lift_fst (modify (fun d =>
    {| _email_count := _email_count d; _current_index := i; data := data d;
       _email := _email d; _emails := _emails d; _api_key := _api_key d |})).

Definition set__email (e : string) : M store unit :=
  lift_fst (modify (fun d =>
    {| _email_count := _email_count d; _current_index := _current_index d;
       data := data d; _email := e; _emails := _emails d;
       _api_key := _api_key d |})).

(** [self.data[k] = v] *)
Definition data_setitem (k : string) (v : list BreachRecord) : M store unit :=
  lift_fst (modify (fun d =>
    {| _email_count := _email_count d; _current_index := _current_index d;
       data := <[k := v]> (data d); _email := _email d; _emails := _emails d;
       _api_key := _api_key d |})).

(** [HaveIBeenPwnedData.__init__] *)
Definition __init__ (emails : list string) (api_key : string)
  : M world HaveIBeenPwnedData :=
  _LOGGER DEBUG
    "Instantiating HaveIBeenPwnedData class and initializing the data object"
    [] ;;
  first <- subscript emails 0 ;;
  ret {| _email_count := length emails; _current_index := 0; data := ∅;
         _email := first; _emails := emails; _api_key := api_key |}.

(** [HaveIBeenPwnedData.set_next_email] *)
Definition set_next_email : M store unit :=
  self <- self_ ;;
  logger DEBUG "Setting the next email to look up email: %s"
    [ArgStr (_email self)] ;;
  i <- py_mod (_current_index self + 1) (_email_count self) ;;
  set__current_index i ;;
  self <- self_ ;;
  e <- subscript (_emails self) (_current_index self) ;;
  set__email e.

(** Local variable [req] of [update]. *)
Definition bind_req (r : response) : M (store * frame) unit :=
  lift_snd (modify (fun _ => {| req := Some r |})).

Definition read_req : M (store * frame) response :=
  fr <- lift_snd get ;;
  match req fr with
  | Some r => ret r
  | None => raise (UnboundLocalError "req")
  end.

(** How a block is left: by falling off its end or by [return]. *)
Inductive flow : Type := Fallthrough | Returned.

(** The body of [HaveIBeenPwnedData.update], under the decorator. *)
Definition update_body (net : http_outcome) : M (store * frame) unit :=
  self <- lift_fst self_ ;;
  lift_fst (logger DEBUG
    "Getting the latest data for the current email from the REST service for email: %s"
    [ArgStr (_email self)]) ;;
  fl <- try_except
    (self <- lift_fst self_ ;;
     let url := URL +:+ _email self in
     let paramspayload := [("truncateResponse", "false")] in
     let header := [("USER_AGENT", HA_USER_AGENT);
                    ("hibp-api-key", _api_key self)] in
     lift_fst (logger DEBUG "Checking for breaches for email: %s"
       [ArgStr (_email self)]) ;;
     r <- lift_fst (lift_snd
            (requests_get url paramspayload header true 5 net)) ;;
     bind_req r ;;
     lift_fst (logger DEBUG "Requested URL is %s" [ArgStr url]) ;;
     r <- read_req ;;
     lift_fst (logger DEBUG "Request object URL is %s"
       [ArgRequestUrl (request_of r)]) ;;
     r <- read_req ;;
     lift_fst (logger DEBUG "Request headers are %s"
       [ArgRequestHeaders (request_of r)]) ;;
     ret Fallthrough)
    is_RequestException
    (self <- lift_fst self_ ;;
     lift_fst (logger ERROR "Failed fetching data for %s"
       [ArgStr (_email self)]) ;;
     r <- read_req ;;
     lift_fst (logger DEBUG "Response was %s" [ArgStr (text r)]) ;;
     ret Returned) ;;
  match fl with
  | Returned => ret tt
  | Fallthrough =>
      r <- read_req ;;
      if decide (status_code r = HTTPStatus_OK) then
        self <- lift_fst self_ ;;
        lift_fst (logger DEBUG "HTTP Status OK fetching data for %s"
          [ArgStr (_email self)]) ;;
        lift_fst (logger DEBUG "Response: %s" [ArgStr (text r)]) ;;
        json_object <- json_method r ;;
        lift_fst (logger DEBUG "The returned JSON data: %s"
          [ArgJson json_object]) ;;
        lift_fst (logger DEBUG "The returned text data: %s"
          [ArgStr (text r)]) ;;
        j <- json_method r ;;
        self <- lift_fst self_ ;;
        lift_fst (data_setitem (_email self) (sorted_reverse AddedDate j)) ;;
        self <- lift_fst self_ ;;
        lift_fst (logger DEBUG "Setting to the next email: %s"
          [ArgStr (_email self)]) ;;
        lift_fst set_next_email
      else if decide (status_code r = HTTPStatus_NOT_FOUND) then
        self <- lift_fst self_ ;;
        lift_fst (logger DEBUG "HTTP Status Not Found fetching data for %s"
          [ArgStr (_email self)]) ;;
        self <- lift_fst self_ ;;
        lift_fst (data_setitem (_email self) []) ;;
        lift_fst set_next_email
      else
        self <- lift_fst self_ ;;
        lift_fst (logger DEBUG
          "An unhandled error occurred fetching data for %s"
          [ArgStr (_email self)]) ;;
        lift_fst (logger DEBUG "The response was: %s" [ArgStr (text r)]) ;;
        self <- lift_fst self_ ;;
        lift_fst (logger ERROR
          "Failed fetching data for %s (HTTP Status_code = %d)"
          [ArgStr (_email self); ArgInt (status_code r)])
  end.

(** One execution of the undecorated [update]: a fresh frame, discarded at
    the end. *)
Definition update_undecorated (net : http_outcome) : M store unit :=
  fun s =>
    match update_body net (s, frame0) with
    | (r, (s', _)) => (r, s')
    end.

(** ** The decorator [homeassistant.util.Throttle] *)

Module Throttle.

(** Modelled from the spec: the class [Throttle] is defined in
    [homeassistant/util/__init__.py], outside this component.  Following
    sections 4.1 and 9 of the specification, the decorator keeps two
    timestamps, [lastStandardRun] and [lastForcedRun], checked at call
    entry. *)
Record throttle_state : Type := {
  lastStandardRun : option Z;
  lastForcedRun : option Z
}.

Definition never_run : throttle_state :=
  {| lastStandardRun := None; lastForcedRun := None |}.

(** More than [window] has passed since [last]. *)
Definition elapsed (last : option Z) (now window : Z) : bool :=
  match last with
  | None => true
  | Some t => (window <? now - t)%Z
  end.

(** Modelled from the spec: the gates of [Throttle].  The standard gate
    lets a call through when more than the long window has passed since the
    last run of the body; the forced gate ([no_throttle=True]) ignores the
    standard gate and lets a call through when more than the short window
    has passed since the last forced run.  A first call is always let
    through. *)
Definition gate_open (min_time limit_no_throttle : Z) (no_throttle : bool)
    (now : Z) (th : throttle_state) : bool :=
  if no_throttle then elapsed (lastForcedRun th) now limit_no_throttle
  else elapsed (lastStandardRun th) now min_time.

(** Modelled from the spec: the timestamps of [Throttle] after a run.
    Every run resets the standard gate, forced ones included. *)
Definition mark_run (no_throttle : bool) (now : Z) (th : throttle_state)
  : throttle_state :=
  {| lastStandardRun := Some now;
     lastForcedRun := if no_throttle then Some now else lastForcedRun th |}.

(** Modelled from the spec: [Throttle(min_time, limit_no_throttle)(method)]
    called at time [now], with or without [no_throttle=True].  The
    timestamp is taken on invocation, whatever the outcome of the body; a
    suppressed call does nothing.  A call takes no time. *)
Definition wrapper {S} (min_time limit_no_throttle : Z) (method : M S unit)
    (no_throttle : bool) (now : Z) : M (throttle_state * S) unit :=
  th <- lift_fst get ;;
  if gate_open min_time limit_no_throttle no_throttle now th then
    lift_fst (modify (mark_run no_throttle now)) ;;
    lift_snd method
  else ret tt.

End Throttle.

Import Throttle.

(** [HaveIBeenPwnedData.update], decorated with
    [@Throttle(MIN_TIME_BETWEEN_UPDATES, MIN_TIME_BETWEEN_FORCED_UPDATES)]. *)
Definition update (no_throttle : bool) (now : Z) (net : http_outcome)
  : M (throttle_state * store) unit :=
  wrapper MIN_TIME_BETWEEN_UPDATES MIN_TIME_BETWEEN_FORCED_UPDATES
    (update_undecorated net) no_throttle now.

(** [HaveIBeenPwnedData.update_no_throttle] *)
Definition update_no_throttle (now : Z) (net : http_outcome)
  : M (throttle_state * store) unit :=
  self <- lift_snd self_ ;;
  lift_snd (logger DEBUG "Getting data for a specific email: %s"
    [ArgStr (_email self)]) ;;
  update true now net.

(** ** Date helpers of [homeassistant.util.dt] and [datetime.strftime] *)

Module dt_util.

Local Open Scope Z_scope.

(** An aware or naive [datetime]; [tzinfo] is the UTC offset in seconds. *)
Record datetime : Type := {
  year : Z; month : Z; day : Z;
  hour : Z; minute : Z; second : Z;
  tzinfo : option Z
}.

(** Days since 1970-01-01 of a date of the proleptic Gregorian calendar,
    and back. *)
Definition days_from_civil (y m d : Z) : Z :=
  let y' := if m <=? 2 then y - 1 else y in
  let era := y' / 400 in
  let yoe := y' - era * 400 in
  let doy := (153 * (if 2 <? m then m - 3 else m + 9) + 2) / 5 + d - 1 in
  let doe := yoe * 365 + yoe / 4 - yoe / 100 + doy in
  era * 146097 + doe - 719468.

Definition civil_from_days (z : Z) : Z * Z * Z :=
  let z' := z + 719468 in
  let era := z' / 146097 in
  let doe := z' - era * 146097 in
  let yoe := (doe - doe / 1460 + doe / 36524 - doe / 146096) / 365 in
  let doy := doe - (365 * yoe + yoe / 4 - yoe / 100) in
  let mp := (5 * doy + 2) / 153 in
  let d := doy - (153 * mp + 2) / 5 + 1 in
  let m := if mp <? 10 then mp + 3 else mp - 9 in
  (yoe + era * 400 + (if m <=? 2 then 1 else 0), m, d).

Definition days_in_month (y m : Z) : Z :=
  days_from_civil (if m =? 12 then y + 1 else y)
                  (if m =? 12 then 1 else m + 1) 1
  - days_from_civil y m 1.

(** A run of decimal digits as a number. *)
Fixpoint digits (acc : Z) (l : list Ascii.ascii) : option Z :=
  match l with
  | [] => Some acc
  | c :: l' =>
      match Ascii.is_nat c with
      | Some n => digits (10 * acc + Z.of_nat n) l'
      | None => None
      end
  end.

Definition in_range (lo x hi : Z) : bool := (lo <=? x) && (x <=? hi).

(** Modelled from the spec: [parse_datetime] of [homeassistant/util/dt.py],
    outside this component.  It reads an ISO 8601 timestamp of the shape
    [YYYY-MM-DDTHH:MM:SS], optionally followed by [Z] for UTC, and answers
    [None] on anything else. *)
Definition parse_datetime (s : string) : option datetime :=
  match String.list_ascii_of_string s with
  | y1 :: y2 :: y3 :: y4 :: dash1 :: m1 :: m2 :: dash2 :: d1 :: d2 :: sep
      :: h1 :: h2 :: colon1 :: mi1 :: mi2 :: colon2 :: s1 :: s2 :: tz =>
      y ← digits 0 [y1; y2; y3; y4];
      m ← digits 0 [m1; m2];
      d ← digits 0 [d1; d2];
      h ← digits 0 [h1; h2];
      mi ← digits 0 [mi1; mi2];
      sec ← digits 0 [s1; s2];
      off ← match tz with
            | [] => Some None
            | [z] => if Ascii.eqb z "Z"%char then Some (Some 0) else None
            | _ => None
            end;
      if Ascii.eqb dash1 "-"%char && Ascii.eqb dash2 "-"%char
         && (Ascii.eqb sep "T"%char || Ascii.eqb sep " "%char)
         && Ascii.eqb colon1 ":"%char && Ascii.eqb colon2 ":"%char
         && in_range 1 y 9999 && in_range 1 m 12
         && in_range 1 d (days_in_month y m)
         && in_range 0 h 23 && in_range 0 mi 59 && in_range 0 sec 59
      then Some {| year := y; month := m; day := d; hour := h;
                   minute := mi; second := sec; tzinfo := off |}
      else None
  | _ => None
  end.

(** Modelled from the spec: [as_local] of [homeassistant/util/dt.py],
    outside this component.  It converts a timestamp to the local time
    zone, here a zone at the fixed offset [local] (seconds east of UTC); a
    naive timestamp is taken as local already. *)
Definition as_local (local : Z) (dattim : datetime) : datetime :=
  match tzinfo dattim with
  | None =>
      {| year := year dattim; month := month dattim; day := day dattim;
         hour := hour dattim; minute := minute dattim;
         second := second dattim; tzinfo := Some local |}
  | Some off =>
      let t := days_from_civil (year dattim) (month dattim) (day dattim)
               * 86400
               + hour dattim * 3600 + minute dattim * 60 + second dattim
               - off + local in
      let '(y, m, d) := civil_from_days (t / 86400) in
      let r := t mod 86400 in
      {| year := y; month := m; day := d; hour := r / 3600;
         minute := r mod 3600 / 60; second := r mod 60;
         tzinfo := Some local |}
  end.

(** [str(n).zfill(width)] for a non-negative [n]. *)
Definition zfill (width : nat) (n : Z) : string :=
  let s := pretty (Z.to_N n) in
  String.string_of_list_ascii
    (replicate (width - String.length s) "0"%char) +:+ s.

Definition directive (c : Ascii.ascii) (d : datetime) : string :=
  if Ascii.eqb c "Y"%char then zfill 4 (year d)
  else if Ascii.eqb c "m"%char then zfill 2 (month d)
  else if Ascii.eqb c "d"%char then zfill 2 (day d)
  else if Ascii.eqb c "H"%char then zfill 2 (hour d)
  else if Ascii.eqb c "M"%char then zfill 2 (minute d)
  else if Ascii.eqb c "S"%char then zfill 2 (second d)
  else String "%"%char (String c "").

(** Modelled from the spec: [datetime.strftime] of the Python library, for
    the directives of [DATE_STR_FORMAT]: zero-padded decimal fields. *)
Fixpoint strftime (fmt : string) (d : datetime) : string :=
  match fmt with
  | EmptyString => ""
  | String c rest =>
      if Ascii.eqb c "%"%char then
        match rest with
        | EmptyString => "%"
        | String k rest' => directive k d +:+ strftime rest' d
        end
      else String c (strftime rest d)
  end.

End dt_util.

(** ** class HaveIBeenPwnedSensor *)

(** Modelled from the spec: [ATTR_ATTRIBUTION] of [homeassistant/const.py],
    the key of the fixed attribution string. *)
Definition ATTR_ATTRIBUTION : string := "attribution".

Definition DATE_STR_FORMAT : string := "%Y-%m-%d %H:%M:%S".

(** *** The host runtime, as far as the sensor drives it *)

(** [track_point_in_time] registers a one-shot timer for a sensor's
    [update_nothrottle]; [schedule_update_ha_state] asks for the sensor's
    state to be written.  Sensors are told apart by their email; most recent
    first. *)
Record hass_state : Type := {
  timers : list (Z * string);
  state_writes : list string
}.

Definition hass0 : hass_state := {| timers := []; state_writes := [] |}.

Definition track_point_in_time (entity : string) (point_in_time : Z)
  : M hass_state unit :=
  modify (fun h => {| timers := (point_in_time, entity) :: timers h;
                      state_writes := state_writes h |}).

Definition schedule_update_ha_state (entity : string) : M hass_state unit :=
  modify (fun h => {| timers := timers h;
                      state_writes := entity :: state_writes h |}).

Module Sensor.

(** The entity's own fields; [_data] is the one fetcher of the store,
    shared by all entities. *)
Record HaveIBeenPwnedSensor : Type := {
  _state : option nat;
  _email : string;
  _unit_of_measurement : string
}.

Definition __init__ (email : string) : HaveIBeenPwnedSensor :=
  {| _state := None; _email := email; _unit_of_measurement := "Breaches" |}.

Definition name (self : HaveIBeenPwnedSensor) : string :=
  "Breaches " +:+ _email self.

Definition native_unit_of_measurement (self : HaveIBeenPwnedSensor) : string :=
  _unit_of_measurement self.

Definition native_value (self : HaveIBeenPwnedSensor) : option nat :=
  _state self.

(** The loop of [extra_state_attributes] over [enumerate(...)], from
    index [idx] on.  [as_local(None)] raises [AttributeError]. *)
Fixpoint attributes_loop (local : Z) (idx : nat) (l : list BreachRecord)
    (val : gmap string string) : outcome (gmap string string) :=
  match l with
  | [] => Return val
  | value :: rest =>
      let tmpname := "breach " +:+ pretty (idx + 1) in
      match dt_util.parse_datetime (AddedDate value) with
      | None => Raise AttributeError
      | Some parsed =>
          let datetime_local := dt_util.as_local local parsed in
          let tmpvalue :=
            Title value +:+ " "
              +:+ dt_util.strftime DATE_STR_FORMAT datetime_local in
          attributes_loop local (S idx) rest (<[tmpname := tmpvalue]> val)
      end
  end.

(** [HaveIBeenPwnedSensor.extra_state_attributes], in a local time zone
    [local] seconds east of UTC. *)
Definition extra_state_attributes (local : Z) (self : HaveIBeenPwnedSensor)
    (_data : HaveIBeenPwnedData) : outcome (gmap string string) :=
  let val : gmap string string := {[ ATTR_ATTRIBUTION := ATTRIBUTION ]} in
  match data _data !! _email self with
  | None => Return val
  | Some breaches => attributes_loop local 0 breaches val
  end.

(** The second half of [update]: refresh the state from the cache. *)
Definition refresh (self : HaveIBeenPwnedSensor) (_data : HaveIBeenPwnedData)
  : HaveIBeenPwnedSensor :=
  match data _data !! _email self with
  | Some breaches =>
      {| _state := Some (length breaches); _email := _email self;
         _unit_of_measurement := _unit_of_measurement self |}
  | None => self
  end.

(** [HaveIBeenPwnedSensor.update] *)
Definition update (now : Z) (net : http_outcome)
  : M (HaveIBeenPwnedSensor * (throttle_state * store)) unit :=
  lift_snd (update false now net) ;;
  modify (fun st => (refresh (fst st) (fst (snd (snd st))), snd st)).

(** [HaveIBeenPwnedSensor.update_nothrottle]: [now] is the clock read by the
    decorator, [later] the one read by [dt_util.now()] afterwards. *)
Definition update_nothrottle (now later : Z) (net : http_outcome)
  : M (hass_state * (HaveIBeenPwnedSensor * (throttle_state * store))) unit :=
  lift_snd (lift_snd (update_no_throttle now net)) ;;
  st <- get ;;
  let self := fst (snd st) in
  let _data := fst (snd (snd (snd st))) in
  match data _data !! _email self with
  | None =>
      lift_fst (track_point_in_time (_email self)
                  (later + MIN_TIME_BETWEEN_FORCED_UPDATES))
  | Some breaches =>
      lift_snd (lift_fst (modify (fun self =>
        {| _state := Some (length breaches); _email := _email self;
           _unit_of_measurement := _unit_of_measurement self |}))) ;;
      lift_fst (schedule_update_ha_state (_email self))
  end.

End Sensor.

(** [setup_platform]: one fetcher, one entity per configured email. *)
Definition setup_platform (emails : list string) (api_key : string)
  : M world (HaveIBeenPwnedData * list Sensor.HaveIBeenPwnedSensor) :=
  data <- __init__ emails api_key ;;
  ret (data, map Sensor.__init__ emails).

(** ** Invariant of the fetcher *)

(** The cursor is inside the list and the current email is the one under
    the cursor. *)
Definition consistent (d : HaveIBeenPwnedData) : Prop :=
  _email_count d = length (_emails d)
  /\ _current_index d < _email_count d
  /\ _emails d !! _current_index d = Some (_email d).

(** Descending order of the sort key. *)
Definition descending {A} (key : A -> string) (x y : A) : Prop :=
  String.le (key y) (key x).

(** What a call through the decorator did: it ran the body of [update]
    (taking the timestamps), or it was suppressed. *)
Definition runs_body (no_throttle : bool) (now : Z) (net : http_outcome)
    (th : throttle_state) (s : store) : Prop :=
  update no_throttle now net (th, s)
  = (fst (update_undecorated net s),
     (mark_run no_throttle now th, snd (update_undecorated net s))).

Definition suppressed (no_throttle : bool) (now : Z) (net : http_outcome)
    (th : throttle_state) (s : store) : Prop :=
  update no_throttle now net (th, s) = (Return tt, (th, s)).

(** The store after the debug line of [update_no_throttle]. *)
Definition announced (s : store) : store :=
  (fst s,
   logged (entry DEBUG "Getting data for a specific email: %s"
             [ArgStr (_email (fst s))]) (snd s)).

(** The request one fetch for [d]'s current email is expected to issue. *)
Definition expected_request (d : HaveIBeenPwnedData) : request :=
  {| req_method := GET;
     req_url := URL +:+ _email d;
     req_params := [("truncateResponse", "false")];
     req_headers := [("USER_AGENT", HA_USER_AGENT);
                     ("hibp-api-key", _api_key d)];
     req_allow_redirects := true;
     req_timeout := 5 |}.

(** The world once the [try] block of [update] has run to its end for the
    fetcher [d]: five debug lines and one request. *)
Definition requested (d : HaveIBeenPwnedData) (w : world) : world :=
  {| log :=
       entry DEBUG "Request headers are %s"
         [ArgRequestHeaders (expected_request d)]
       :: entry DEBUG "Request object URL is %s"
            [ArgRequestUrl (expected_request d)]
       :: entry DEBUG "Requested URL is %s" [ArgStr (URL +:+ _email d)]
       :: entry DEBUG "Checking for breaches for email: %s"
            [ArgStr (_email d)]
       :: entry DEBUG
            "Getting the latest data for the current email from the REST service for email: %s"
            [ArgStr (_email d)]
       :: log w;
     sent := expected_request d :: sent w |}.

(** The world when [requests.get] has raised and the handler has logged
    the failure. *)
Definition request_failed (d : HaveIBeenPwnedData) (w : world) : world :=
  {| log :=
       entry ERROR "Failed fetching data for %s" [ArgStr (_email d)]
       :: entry DEBUG "Checking for breaches for email: %s"
            [ArgStr (_email d)]
       :: entry DEBUG
            "Getting the latest data for the current email from the REST service for email: %s"
            [ArgStr (_email d)]
       :: log w;
     sent := expected_request d :: sent w |}.

(** The fetcher with its cursor moved to [i] and its current email to [e]. *)
Definition moved (d : HaveIBeenPwnedData) (i : nat) (e : string)
  : HaveIBeenPwnedData :=
  {| _email_count := _email_count d; _current_index := i; data := data d;
     _email := e; _emails := _emails d; _api_key := _api_key d |}.

(** The fetcher with [v] cached under [k]. *)
Definition cached (d : HaveIBeenPwnedData) (k : string)
    (v : list BreachRecord) : HaveIBeenPwnedData :=
  {| _email_count := _email_count d; _current_index := _current_index d;
     data := <[k := v]> (data d); _email := _email d; _emails := _emails d;
     _api_key := _api_key d |}.

(** The service's contract on answers: a 200 answer carries a body that
    decodes as an array of breach records. *)
Definition decodable (net : http_outcome) : Prop :=
  match net with
  | Responds st _ None => st <> HTTPStatus_OK
  | _ => True
  end.

(** The answers after which the cursor is advanced: HTTP 200 and 404. *)
Definition advances (net : http_outcome) : bool :=
  match net with
  | Fails => false
  | Responds st _ _ =>
      bool_decide (st = HTTPStatus_OK) || bool_decide (st = HTTPStatus_NOT_FOUND)
  end.


(** The gate of the decorated [update]. *)
Definition update_gate (no_throttle : bool) (now : Z) (th : throttle_state)
  : bool :=
  gate_open MIN_TIME_BETWEEN_UPDATES MIN_TIME_BETWEEN_FORCED_UPDATES
    no_throttle now th.

(** A run of fetches, one per answer of the network, each on the state the
    previous one left; an exception ends the run. *)
Fixpoint fetches (nets : list http_outcome) : M store unit :=
  match nets with
  | [] => ret tt
  | net :: rest => update_undecorated net ;; fetches rest
  end.

(** An answer after which the fetch stores a result: HTTP 404, or HTTP 200
    with a body that decodes. *)
Definition stores_result (net : http_outcome) : Prop :=
  advances net = true /\ decodable net.

(** The number of error-level records of a log. *)
Definition is_error (e : log_record) : bool :=
  match lr_level e with ERROR => true | DEBUG => false end.

Definition errors (w : world) : nat := length (List.filter is_error (log w)).

(** ** A small configuration *)

Definition example_emails : list string := ["a@x.com"; "b@x.com"].

(** A fetcher over two emails, the cursor on the last one, nothing cached. *)
Definition example_fetcher : HaveIBeenPwnedData :=
  {| _email_count := 2; _current_index := 1; data := ∅;
     _email := "b@x.com"; _emails := example_emails; _api_key := "key" |}.

Definition acme : BreachRecord :=
  {| Title := "Acme"; AddedDate := "2021-06-01T12:00:00Z" |}.

Definition old_forum : BreachRecord :=
  {| Title := "Old Forum"; AddedDate := "2019-03-01T23:30:00Z" |}.

(** The same fetcher with one breach cached for the second email. *)
Definition example_cached : HaveIBeenPwnedData :=
  cached example_fetcher "b@x.com" [acme].

(** The sensor of the second email, one breach known. *)
Definition example_sensor : Sensor.HaveIBeenPwnedSensor :=
  {| Sensor._state := Some 1; Sensor._email := "b@x.com";
     Sensor._unit_of_measurement := "Breaches" |}.

(** Answers of the network: no breach, and the two example breaches. *)
Definition no_breach : http_outcome := Responds 404 "" None.

Definition two_breaches : http_outcome :=
  Responds 200 "" (Some [old_forum; acme]).

(** * Properties *)

(** ** Sorting *)

Section Sorting.
Context {A : Type} (key : A -> string).

Lemma ltb_descending (x y : A) :
  String.ltb (key x) (key y) = true -> descending key y x.
Proof.
  unfold descending, String.le, String.ltb, String.leb.
  destruct (String.compare (key x) (key y)); simpl; intros; try done.
Qed.

Lemma not_ltb_descending (x y : A) :
  String.ltb (key x) (key y) = false -> descending key x y.
Proof.
  unfold descending, String.le, String.ltb, String.leb.
  rewrite (String.compare_antisym (key x) (key y)).
  destruct (String.compare (key y) (key x)); simpl; intros; try done.
Qed.

Lemma insert_reverse_perm (x : A) (l : list A) :
  Permutation (insert_reverse key x l) (x :: l).
Proof.
  induction l as [|y l IH]; simpl; [reflexivity|].
  destruct (String.ltb (key x) (key y)); [|reflexivity].
  rewrite IH. apply perm_swap.
Qed.

Lemma sorted_reverse_perm (l : list A) :
  Permutation (sorted_reverse key l) l.
Proof.
  induction l as [|x l IH]; simpl; [reflexivity|].
  unfold sorted_reverse in *; simpl.
  rewrite insert_reverse_perm. by constructor.
Qed.

Lemma insert_reverse_hd (x y : A) (l : list A) :
  descending key y x -> HdRel (descending key) y l ->
  HdRel (descending key) y (insert_reverse key x l).
Proof.
  intros Hyx Hl. destruct l as [|z l]; simpl; [by constructor|].
  destruct (String.ltb (key x) (key z)); constructor; [|done].
  by inversion Hl.
Qed.

Lemma insert_reverse_sorted (x : A) (l : list A) :
  Sorted (descending key) l ->
  Sorted (descending key) (insert_reverse key x l).
Proof.
  induction 1 as [|y l Hs IH Hhd]; simpl.
  - repeat constructor.
  - destruct (String.ltb (key x) (key y)) eqn:Hlt.
    + constructor; [done|].
      apply insert_reverse_hd; [by apply ltb_descending|done].
    + constructor; [by constructor|].
      constructor. by apply not_ltb_descending.
Qed.

Lemma sorted_reverse_sorted (l : list A) :
  Sorted (descending key) (sorted_reverse key l).
Proof.
  induction l as [|x l IH]; [constructor|].
  by apply insert_reverse_sorted.
Qed.

Lemma descending_trans : Transitive (descending key).
Proof.
  intros x y z Hxy Hyz. unfold descending in *. by etrans.
Qed.

Lemma sorted_reverse_strongly_sorted (l : list A) :
  StronglySorted (descending key) (sorted_reverse key l).
Proof.
  apply Sorted_StronglySorted;
    [apply descending_trans | apply sorted_reverse_sorted].
Qed.

Lemma sorted_reverse_length (l : list A) :
  length (sorted_reverse key l) = length l.
Proof. apply Permutation_length, sorted_reverse_perm. Qed.

End Sorting.

(** ** The cursor *)

Lemma consistent_next (d : HaveIBeenPwnedData) :
  consistent d ->
  exists e, _emails d !! ((_current_index d + 1) mod _email_count d) = Some e.
Proof.
  intros (Hlen & Hlt & _).
  apply lookup_lt_is_Some_2. rewrite <- Hlen.
  apply Nat.mod_upper_bound. lia.
Qed.

Lemma set_next_email_run (d : HaveIBeenPwnedData) (w : world) (e : string) :
  _email_count d <> 0 ->
  _emails d !! ((_current_index d + 1) mod _email_count d) = Some e ->
  set_next_email (d, w)
  = (Return tt,
     (moved d ((_current_index d + 1) mod _email_count d) e,
      logged (entry DEBUG "Setting the next email to look up email: %s"
                [ArgStr (_email d)]) w)).
Proof.
  intros Hk He.
  unfold set_next_email, bind, self_, logger, lift_fst, lift_snd, py_mod,
    set__current_index, set__email, subscript, get, modify, ret, _LOGGER,
    logged, entry.
  cbn -[Nat.modulo].
  destruct (_email_count d) as [|k] eqn:Hcount; [done|].
  cbn -[Nat.modulo]. rewrite He. reflexivity.
Qed.

Lemma moved_consistent (d : HaveIBeenPwnedData) (e : string) :
  consistent d ->
  _emails d !! ((_current_index d + 1) mod _email_count d) = Some e ->
  consistent (moved d ((_current_index d + 1) mod _email_count d) e).
Proof.
  intros (Hlen & Hlt & Hcur) He. repeat split; simpl; [done| |done].
  apply Nat.mod_upper_bound. lia.
Qed.

Lemma cached_consistent (d : HaveIBeenPwnedData) (k : string)
    (v : list BreachRecord) :
  consistent d -> consistent (cached d k v).
Proof. intros (? & ? & ?). by repeat split. Qed.

(** ** One run of the body of [update], branch by branch *)

(** Closes a goal whose left-hand side ends in [set_next_email] on a store
    convertible to the one of the right-hand side. *)
Ltac fold_next :=
  lazymatch goal with
  | |- _ = set_next_email ?b =>
      lazymatch goal with
      | |- context [lift_fst set_next_email (?a, _)] =>
          change a with b; unfold lift_fst; cbn [fst snd];
          destruct (set_next_email b) as [? [? ?]]; reflexivity
      end
  end.

Lemma update_undecorated_fails (d : HaveIBeenPwnedData) (w : world) :
  update_undecorated Fails (d, w)
  = (Raise (UnboundLocalError "req"), (d, request_failed d w)).
Proof. reflexivity. Qed.

Lemma update_undecorated_other (d : HaveIBeenPwnedData) (w : world)
    (st : nat) (body : string) (dec : option (list BreachRecord)) :
  st <> HTTPStatus_OK -> st <> HTTPStatus_NOT_FOUND ->
  update_undecorated (Responds st body dec) (d, w)
  = (Return tt,
     (d,
      logged (entry ERROR "Failed fetching data for %s (HTTP Status_code = %d)"
                [ArgStr (_email d); ArgInt st])
        (logged (entry DEBUG "The response was: %s" [ArgStr body])
           (logged (entry DEBUG
                      "An unhandled error occurred fetching data for %s"
                      [ArgStr (_email d)])
              (requested d w))))).
Proof.
  intros Hok Hnf. unfold update_undecorated, update_body. cbn.
  rewrite !decide_False by done. reflexivity.
Qed.

Lemma update_undecorated_not_found (d : HaveIBeenPwnedData) (w : world)
    (body : string) (dec : option (list BreachRecord)) :
  update_undecorated (Responds HTTPStatus_NOT_FOUND body dec) (d, w)
  = set_next_email
      (cached d (_email d) [],
       logged (entry DEBUG "HTTP Status Not Found fetching data for %s"
                 [ArgStr (_email d)])
         (requested d w)).
Proof.
  unfold update_undecorated, update_body. cbn -[set_next_email].
  rewrite decide_False by done. rewrite decide_True by done.
  cbn -[set_next_email]. fold_next.
Qed.

Lemma update_undecorated_ok (d : HaveIBeenPwnedData) (w : world)
    (body : string) (j : list BreachRecord) :
  update_undecorated (Responds HTTPStatus_OK body (Some j)) (d, w)
  = set_next_email
      (cached d (_email d) (sorted_reverse AddedDate j),
       logged (entry DEBUG "Setting to the next email: %s" [ArgStr (_email d)])
         (logged (entry DEBUG "The returned text data: %s" [ArgStr body])
            (logged (entry DEBUG "The returned JSON data: %s" [ArgJson j])
               (logged (entry DEBUG "Response: %s" [ArgStr body])
                  (logged (entry DEBUG "HTTP Status OK fetching data for %s"
                             [ArgStr (_email d)])
                     (requested d w)))))).
Proof.
  unfold update_undecorated, update_body.
  cbn -[set_next_email sorted_reverse].
  rewrite decide_True by done. cbn -[set_next_email sorted_reverse].
  fold_next.
Qed.

Lemma update_undecorated_undecodable (d : HaveIBeenPwnedData) (w : world)
    (body : string) :
  update_undecorated (Responds HTTPStatus_OK body None) (d, w)
  = (Raise JSONDecodeError,
     (d,
      logged (entry DEBUG "Response: %s" [ArgStr body])
        (logged (entry DEBUG "HTTP Status OK fetching data for %s"
                   [ArgStr (_email d)])
           (requested d w)))).
Proof.
  unfold update_undecorated, update_body. cbn.
  rewrite decide_True by done. reflexivity.
Qed.

Lemma set_next_email_sent (d : HaveIBeenPwnedData) (w : world) :
  sent (snd (snd (set_next_email (d, w)))) = sent w.
Proof.
  unfold set_next_email, bind, self_, logger, lift_fst, lift_snd, py_mod,
    set__current_index, set__email, subscript, get, modify, ret, raise,
    _LOGGER.
  cbn -[Nat.modulo].
  destruct (_email_count d); [reflexivity|].
  cbn -[Nat.modulo]. by destruct (_emails d !! _).
Qed.

Lemma set_next_email_consistent (d : HaveIBeenPwnedData) (w : world) :
  consistent d ->
  exists e w',
    _emails d !! ((_current_index d + 1) mod _email_count d) = Some e
    /\ set_next_email (d, w)
       = (Return tt,
          (moved d ((_current_index d + 1) mod _email_count d) e, w'))
    /\ sent w' = sent w.
Proof.
  intros Hc. destruct (consistent_next d Hc) as [e He].
  exists e. eexists. split; [done|]. split.
  - apply set_next_email_run; [|done]. destruct Hc as (_ & ? & _). lia.
  - reflexivity.
Qed.

(** ** Through the decorator *)

Lemma update_let_through (nt : bool) (now : Z) (net : http_outcome)
    (th : throttle_state) (s : store) :
  update_gate nt now th = true -> runs_body nt now net th s.
Proof.
  intros Hg. unfold runs_body, update, wrapper, update_gate in *.
  unfold bind, lift_fst, lift_snd, get, modify, ret; cbn.
  rewrite Hg. cbn. by destruct (update_undecorated net s).
Qed.

Lemma update_held_back (nt : bool) (now : Z) (net : http_outcome)
    (th : throttle_state) (s : store) :
  update_gate nt now th = false -> suppressed nt now net th s.
Proof.
  intros Hg. unfold suppressed, update, wrapper, update_gate in *.
  unfold bind, lift_fst, lift_snd, get, modify, ret; cbn.
  rewrite Hg. by destruct s.
Qed.

Lemma update_cases (nt : bool) (now : Z) (net : http_outcome)
    (th : throttle_state) (s : store) :
  update nt now net (th, s)
  = if update_gate nt now th
    then (fst (update_undecorated net s),
          (mark_run nt now th, snd (update_undecorated net s)))
    else (Return tt, (th, s)).
Proof.
  destruct (update_gate nt now th) eqn:Hg.
  - by apply update_let_through.
  - by apply update_held_back.
Qed.

(** The fetcher left behind by one run of the body, for each answer. *)
Lemma body_fetcher (d : HaveIBeenPwnedData) (w : world) (net : http_outcome) :
  consistent d -> decodable net ->
  exists e,
    _emails d !! ((_current_index d + 1) mod _email_count d) = Some e
    /\ fst (snd (update_undecorated net (d, w)))
       = match net with
         | Fails => d
         | Responds st _ dec =>
             if decide (st = HTTPStatus_OK) then
               moved (cached d (_email d)
                        (sorted_reverse AddedDate (default [] dec)))
                 ((_current_index d + 1) mod _email_count d) e
             else if decide (st = HTTPStatus_NOT_FOUND) then
               moved (cached d (_email d) [])
                 ((_current_index d + 1) mod _email_count d) e
             else d
         end.
Proof.
  intros Hc Hdec. destruct (consistent_next d Hc) as [e He].
  exists e. split; [done|].
  assert (Hk : _email_count d <> 0) by (destruct Hc as (_ & ? & _); lia).
  destruct net as [|st body dec]; [reflexivity|].
  destruct (decide (st = HTTPStatus_OK)) as [->|Hok].
  - destruct dec as [j|]; [|done].
    rewrite update_undecorated_ok.
    by rewrite (set_next_email_run _ _ e).
  - destruct (decide (st = HTTPStatus_NOT_FOUND)) as [->|Hnf].
    + rewrite update_undecorated_not_found.
      by rewrite (set_next_email_run _ _ e).
    + by rewrite update_undecorated_other.
Qed.

(** ** Transport failures *)

(** C1, as the code behaves: when [requests.get] raises, the handler logs
    the failure at error level and then evaluates [req.text] with [req]
    still unbound; the call ends in [UnboundLocalError], for every fetcher
    and also through the decorator on either path.  The fetcher (cache and
    cursor) is left untouched. *)
Theorem transport_error_raises (d : HaveIBeenPwnedData) (w : world)
    (no_throttle : bool) (now : Z) :
  update_undecorated Fails (d, w)
  = (Raise (UnboundLocalError "req"), (d, request_failed d w))
  /\ head (log (request_failed d w))
     = Some (entry ERROR "Failed fetching data for %s" [ArgStr (_email d)])
  /\ (let '(r, (_, (d', w'))) :=
        update no_throttle now Fails (never_run, (d, w)) in
      r = Raise (UnboundLocalError "req")
      /\ d' = d /\ w' = request_failed d w).
Proof.
  split; [reflexivity|]. split; [reflexivity|].
  rewrite update_cases.
  assert (update_gate no_throttle now never_run = true) as ->
    by by destruct no_throttle.
  rewrite update_undecorated_fails. cbn [fst snd]. by repeat split.
Qed.

(** ** The cursor *)


(** ** HTTP 404 *)

(** C5: after a fetch answered by HTTP 404 the cache holds the empty list
    under the fetched email (present, whatever was there before), the cursor
    has advanced, and the sensor of that email reads 0: both the refresh of
    its state from the cache and a whole [update] of the sensor whose fetch
    is held back by the throttle. *)
Theorem not_found_caches_empty (d : HaveIBeenPwnedData) (w : world)
    (body : string) (dec : option (list BreachRecord))
    (Hc : consistent d) :
  let '(r, (d', w')) :=
    update_undecorated (Responds HTTPStatus_NOT_FOUND body dec) (d, w) in
  r = Return tt
  /\ data d' = <[_email d := []]> (data d)
  /\ data d' !! _email d = Some []
  /\ _current_index d' = (_current_index d + 1) mod length (_emails d)
  /\ forall self : Sensor.HaveIBeenPwnedSensor,
       Sensor._email self = _email d ->
       Sensor.native_value (Sensor.refresh self d') = Some 0
       /\ forall th now net,
            update_gate false now th = false ->
            let '(r2, (self', _)) :=
              Sensor.update now net (self, (th, (d', w'))) in
            r2 = Return tt /\ Sensor.native_value self' = Some 0.
Proof.
  rewrite update_undecorated_not_found.
  destruct (set_next_email_consistent
              (cached d (_email d) [])
              (logged (entry DEBUG "HTTP Status Not Found fetching data for %s"
                         [ArgStr (_email d)]) (requested d w)))
    as (e & w' & He & -> & _); [by apply cached_consistent|].
  cbn [moved cached data _current_index _email_count _emails].
  assert (Hlook : <[_email d := []]> (data d) !! _email d
                  = Some ([] : list BreachRecord))
    by apply lookup_insert_eq.
  destruct Hc as (<- & _ & _).
  do 4 (split; [done|]).
  intros self Hself.
  assert (Hread : Sensor.native_value
                    (Sensor.refresh self
                       (moved (cached d (_email d) [])
                          ((_current_index d + 1) mod _email_count d) e))
                  = Some 0).
  { unfold Sensor.native_value, Sensor.refresh.
    cbn [moved cached data]. rewrite Hself, Hlook. reflexivity. }
  split; [done|].
  intros th now net Hg.
  unfold Sensor.update, bind, lift_snd, modify. cbn [fst snd].
  rewrite (update_held_back false now net th _ Hg). by cbn [fst snd].
Qed.

(** ** Other statuses *)

(** C6: a fetch answered by a status other than 200 and 404 returns
    normally, logs an error, and leaves the whole fetcher as it was: every
    cache entry, present or absent, and the cursor. *)
Theorem other_status_changes_nothing (d : HaveIBeenPwnedData) (w : world)
    (st : nat) (body : string) (dec : option (list BreachRecord))
    (Hok : st <> HTTPStatus_OK) (Hnf : st <> HTTPStatus_NOT_FOUND) :
  let '(r, (d', w')) := update_undecorated (Responds st body dec) (d, w) in
  r = Return tt
  /\ d' = d
  /\ (forall email, data d' !! email = data d !! email)
  /\ _current_index d' = _current_index d
  /\ head (log w')
     = Some (entry ERROR "Failed fetching data for %s (HTTP Status_code = %d)"
               [ArgStr (_email d); ArgInt st]).
Proof. by rewrite update_undecorated_other. Qed.

(** ** HTTP 200 *)

(** C7: a fetch answered by HTTP 200 with a body that decodes to the
    records [j] returns normally; the cache then holds, under the email at
    the cursor before the call, a rearrangement of [j] in which every record
    comes before all records of smaller or equal [AddedDate]; the cursor has
    moved to the next email, wrapping around, and the current email follows
    it. *)
Theorem ok_caches_sorted (d : HaveIBeenPwnedData) (w : world)
    (body : string) (j : list BreachRecord) (Hc : consistent d) :
  let '(r, (d', w')) :=
    update_undecorated (Responds HTTPStatus_OK body (Some j)) (d, w) in
  r = Return tt
  /\ _emails d !! _current_index d = Some (_email d)
  /\ data d' = <[_email d := sorted_reverse AddedDate j]> (data d)
  /\ data d' !! _email d = Some (sorted_reverse AddedDate j)
  /\ Permutation (sorted_reverse AddedDate j) j
  /\ StronglySorted (descending AddedDate) (sorted_reverse AddedDate j)
  /\ _current_index d' = (_current_index d + 1) mod length (_emails d)
  /\ _emails d' = _emails d
  /\ _emails d !! _current_index d' = Some (_email d').
Proof.
  rewrite update_undecorated_ok.
  destruct (set_next_email_consistent
              (cached d (_email d) (sorted_reverse AddedDate j))
              (logged (entry DEBUG "Setting to the next email: %s"
                         [ArgStr (_email d)])
                 (logged (entry DEBUG "The returned text data: %s"
                            [ArgStr body])
                    (logged (entry DEBUG "The returned JSON data: %s"
                               [ArgJson j])
                       (logged (entry DEBUG "Response: %s" [ArgStr body])
                          (logged (entry DEBUG
                                     "HTTP Status OK fetching data for %s"
                                     [ArgStr (_email d)])
                             (requested d w)))))))
    as (e & w' & He & -> & _); [by apply cached_consistent|].
  cbn [moved cached data _current_index _email_count _emails _email] in *.
  destruct Hc as (Hlen & Hlt & Hcur). rewrite <- Hlen.
  split; [done|]. split; [done|]. split; [done|].
  split; [apply lookup_insert_eq|].
  split; [apply sorted_reverse_perm|].
  split; [apply sorted_reverse_strongly_sorted|].
  done.
Qed.

(** ** The request *)

Lemma body_sent (d : HaveIBeenPwnedData) (w : world) (net : http_outcome) :
  sent (snd (snd (update_undecorated net (d, w))))
  = expected_request d :: sent w.
Proof.
  destruct net as [|st body dec]; [reflexivity|].
  destruct (decide (st = HTTPStatus_OK)) as [->|Hok].
  - destruct dec as [j|].
    + rewrite update_undecorated_ok. by rewrite set_next_email_sent.
    + by rewrite update_undecorated_undecodable.
  - destruct (decide (st = HTTPStatus_NOT_FOUND)) as [->|Hnf].
    + rewrite update_undecorated_not_found. by rewrite set_next_email_sent.
    + by rewrite update_undecorated_other.
Qed.

(** C9: a call of [update] that runs the body issues exactly one request,
    whatever the network answers: a GET to the base URL followed by the
    current email, with the parameter [truncateResponse=false], two headers
    carrying the user agent string and the API key, redirects allowed and a
    timeout of 5 seconds.  A suppressed call issues none. *)
Theorem fetch_issues_one_get (d : HaveIBeenPwnedData) (w : world)
    (th : throttle_state) (no_throttle : bool) (now : Z) (net : http_outcome) :
  sent (snd (snd (snd (update no_throttle now net (th, (d, w))))))
  = if update_gate no_throttle now th
    then {| req_method := GET;
            req_url :=
              "https://haveibeenpwned.com/api/v3/breachedaccount/"
                +:+ _email d;
            req_params := [("truncateResponse", "false")];
            req_headers :=
              [("USER_AGENT",
                "Home Assistant HaveIBeenPwned Sensor Component");
               ("hibp-api-key", _api_key d)];
            req_allow_redirects := true;
            req_timeout := 5 |} :: sent w
    else sent w.
Proof.
  rewrite update_cases.
  destruct (update_gate no_throttle now th); [|reflexivity].
  cbn [fst snd]. apply body_sent.
Qed.

(** ** The invariant *)

Lemma body_consistent (d : HaveIBeenPwnedData) (w : world)
    (net : http_outcome) :
  consistent d ->
  consistent (fst (snd (update_undecorated net (d, w))))
  /\ _emails (fst (snd (update_undecorated net (d, w)))) = _emails d.
Proof.
  intros Hc.
  destruct net as [|st body [j|]].
  - done.
  - destruct (body_fetcher d w (Responds st body (Some j)) Hc I)
      as (e & He & ->).
    destruct (decide (st = HTTPStatus_OK)); [|destruct (decide _)]; try done.
    + split; [|done].
      by apply (moved_consistent (cached d _ _)); [apply cached_consistent|].
    + split; [|done].
      by apply (moved_consistent (cached d _ _)); [apply cached_consistent|].
  - destruct (decide (st = HTTPStatus_OK)) as [->|Hok].
    + by rewrite update_undecorated_undecodable.
    + destruct (body_fetcher d w (Responds st body None) Hc Hok)
        as (e & He & ->).
      rewrite decide_False by done.
      destruct (decide _); [|done].
      split; [|done].
      by apply (moved_consistent (cached d _ _)); [apply cached_consistent|].
Qed.

(** C10: constructing the fetcher on a non-empty list succeeds with the
    cursor at 0; from then on [set_next_email] and every call of [update]
    (either path, any time, any answer of the network, whether it returns or
    raises) keep the cursor inside the list and the current email equal to
    the list's entry under the cursor, without changing the list.  On an
    empty list the constructor raises [IndexError], and [set_next_email] on
    a fetcher counting no emails raises [ZeroDivisionError]. *)
Theorem cursor_invariant (emails : list string) (api_key : string)
    (w0 : world) :
  (emails <> [] ->
   exists d w1,
     __init__ emails api_key w0 = (Return d, w1)
     /\ _emails d = emails /\ _current_index d = 0 /\ consistent d)
  /\ (forall d w, consistent d ->
        let '(r, (d', _)) := set_next_email (d, w) in
        r = Return tt /\ consistent d' /\ _emails d' = _emails d)
  /\ (forall d w th no_throttle now net, consistent d ->
        let '(_, (_, (d', _))) := update no_throttle now net (th, (d, w)) in
        consistent d' /\ _emails d' = _emails d)
  /\ fst (__init__ [] api_key w0) = Raise IndexError
  /\ (forall d w, _email_count d = 0 ->
        fst (set_next_email (d, w)) = Raise ZeroDivisionError).
Proof.
  split; [|split; [|split; [|split]]].
  - intros Hne. destruct emails as [|first rest]; [done|].
    eexists _, _. split; [reflexivity|].
    repeat split; cbn; lia.
  - intros d w Hc.
    destruct (set_next_email_consistent d w Hc) as (e & w' & He & -> & _).
    split; [done|]. split; [by apply moved_consistent|done].
  - intros d w th nt now net Hc. rewrite update_cases.
    destruct (update_gate nt now th); [|by destruct Hc].
    pose proof (body_consistent d w net Hc) as Hb.
    destruct (update_undecorated net (d, w)) as [r [d' w']]. exact Hb.
  - reflexivity.
  - intros d w Hk.
    unfold set_next_email, bind, self_, logger, lift_fst, lift_snd, py_mod,
      get, modify, raise, _LOGGER.
    cbn -[Nat.modulo]. by rewrite Hk.
Qed.

(** ** The two throttle gates *)

Lemma standard_gate_after_run (nt : bool) (t1 t2 : Z) (th : throttle_state) :
  update_gate false t2 (mark_run nt t1 th)
  = (MIN_TIME_BETWEEN_UPDATES <? t2 - t1)%Z.
Proof. reflexivity. Qed.

Lemma forced_gate_after_forced_run (t1 t2 : Z) (th : throttle_state) :
  update_gate true t2 (mark_run true t1 th)
  = (MIN_TIME_BETWEEN_FORCED_UPDATES <? t2 - t1)%Z.
Proof. reflexivity. Qed.

Lemma update_no_throttle_announces (now : Z) (net : http_outcome)
    (th : throttle_state) (s : store) :
  update_no_throttle now net (th, s) = update true now net (th, announced s).
Proof.
  unfold update_no_throttle, bind, lift_snd, self_, lift_fst, get, logger,
    _LOGGER, modify, announced.
  by destruct s.
Qed.

(** C3: on the standard path, a call that is let through runs the body
    (the first call on a fresh fetcher is); a second call less than the long
    window of 15 minutes later does nothing at all, whatever the first
    fetch's outcome was, and a second call more than the long window later
    runs the body again. *)
Theorem standard_throttle (th : throttle_state) (s : store) (t1 t2 : Z)
    (net1 net2 : http_outcome)
    (Hopen : update_gate false t1 th = true) :
  update_gate false t1 never_run = true
  /\ MIN_TIME_BETWEEN_UPDATES = (15 * 60 * 1000000)%Z
  /\ let '(r1, (th1, s1)) := update false t1 net1 (th, s) in
     (r1, s1) = update_undecorated net1 s
     /\ ((t2 - t1 < MIN_TIME_BETWEEN_UPDATES)%Z ->
         update false t2 net2 (th1, s1) = (Return tt, (th1, s1)))
     /\ ((MIN_TIME_BETWEEN_UPDATES < t2 - t1)%Z ->
         let '(r2, (_, s2)) := update false t2 net2 (th1, s1) in
         (r2, s2) = update_undecorated net2 s1).
Proof.
  split; [reflexivity|]. split; [reflexivity|].
  rewrite (update_let_through false t1 net1 th s Hopen).
  destruct (update_undecorated net1 s) as [r1 s1]. cbn [fst snd].
  split; [reflexivity|]. split.
  - intros Hlt. apply update_held_back.
    rewrite standard_gate_after_run. apply Z.ltb_ge. lia.
  - intros Hgt.
    rewrite (update_let_through false t2 net2).
    + by destruct (update_undecorated net2 s1).
    + rewrite standard_gate_after_run. by apply Z.ltb_lt.
Qed.

(** C4: on the forced path ([update_no_throttle]), a call that is let
    through runs the body (the first call on a fresh fetcher is); a second
    forced call less than the short window of 5 seconds later only writes
    its debug line, and a second forced call more than the short window
    later runs the body again, also while the standard gate is still closed.
    Whether a forced call is let through does not depend on the standard
    gate's timestamp. *)
Theorem forced_throttle (th : throttle_state) (s : store) (t1 t2 : Z)
    (net1 net2 : http_outcome)
    (Hopen : update_gate true t1 th = true) :
  update_gate true t1 never_run = true
  /\ MIN_TIME_BETWEEN_FORCED_UPDATES = (5 * 1000000)%Z
  /\ (forall last : option Z,
        update_gate true t1
          {| lastStandardRun := last; lastForcedRun := lastForcedRun th |}
        = true)
  /\ let '(r1, (th1, s1)) := update_no_throttle t1 net1 (th, s) in
     (r1, s1) = update_undecorated net1 (announced s)
     /\ ((t2 - t1 < MIN_TIME_BETWEEN_FORCED_UPDATES)%Z ->
         update_no_throttle t2 net2 (th1, s1)
         = (Return tt, (th1, announced s1)))
     /\ ((MIN_TIME_BETWEEN_FORCED_UPDATES < t2 - t1)%Z ->
         let '(r2, (_, s2)) := update_no_throttle t2 net2 (th1, s1) in
         (r2, s2) = update_undecorated net2 (announced s1)
         /\ ((t2 - t1 <= MIN_TIME_BETWEEN_UPDATES)%Z ->
             update_gate false t2 th1 = false)).
Proof.
  split; [reflexivity|]. split; [reflexivity|]. split; [intros; exact Hopen|].
  rewrite update_no_throttle_announces.
  rewrite (update_let_through true t1 net1 th (announced s) Hopen).
  destruct (update_undecorated net1 (announced s)) as [r1 s1]. cbn [fst snd].
  split; [reflexivity|]. split.
  - intros Hlt. rewrite update_no_throttle_announces.
    apply update_held_back.
    rewrite forced_gate_after_forced_run. apply Z.ltb_ge. lia.
  - intros Hgt. rewrite update_no_throttle_announces.
    rewrite (update_let_through true t2 net2).
    + destruct (update_undecorated net2 (announced s1)). cbn [fst snd].
      split; [reflexivity|]. intros Hle.
      rewrite standard_gate_after_run. apply Z.ltb_ge. lia.
    + rewrite forced_gate_after_forced_run. by apply Z.ltb_lt.
Qed.

(** ** Attributes *)

Lemma append_empty_r (s : string) : s +:+ "" = s.
Proof.
  induction s as [|c s IH]; [reflexivity|].
  change (String c (s +:+ "") = String c s). by rewrite IH.
Qed.

Lemma strftime_DATE_STR_FORMAT (t : dt_util.datetime) :
  dt_util.strftime DATE_STR_FORMAT t
  = dt_util.zfill 4 (dt_util.year t) +:+ "-"
    +:+ dt_util.zfill 2 (dt_util.month t) +:+ "-"
    +:+ dt_util.zfill 2 (dt_util.day t) +:+ " "
    +:+ dt_util.zfill 2 (dt_util.hour t) +:+ ":"
    +:+ dt_util.zfill 2 (dt_util.minute t) +:+ ":"
    +:+ dt_util.zfill 2 (dt_util.second t).
Proof.
  rewrite <- (append_empty_r (dt_util.zfill 2 (dt_util.second t))).
  reflexivity.
Qed.

Section Attributes.
Variable local : Z.

(** The name and the value of the attribute of the record at 0-based
    position [i]. *)
Let attr_name (i : nat) : string := "breach " +:+ pretty (i + 1).

Let attr_value (r : BreachRecord) (parsed : dt_util.datetime) : string :=
  Title r +:+ " "
    +:+ dt_util.strftime DATE_STR_FORMAT (dt_util.as_local local parsed).

Lemma attr_name_inj (i j : nat) : attr_name i = attr_name j -> i = j.
Proof.
  unfold attr_name. intros H.
  apply (inj (String.app "breach ")) in H.
  apply (inj pretty) in H. lia.
Qed.

Lemma attr_name_not_attribution (i : nat) : attr_name i <> ATTR_ATTRIBUTION.
Proof. unfold attr_name, ATTR_ATTRIBUTION. cbn. discriminate. Qed.

Lemma attributes_loop_spec (l : list BreachRecord) :
  forall (idx : nat) (val : gmap string string),
    Forall (fun r => is_Some (dt_util.parse_datetime (AddedDate r))) l ->
    exists val',
      Sensor.attributes_loop local idx l val = Return val'
      /\ (forall key,
            (forall i, i < length l -> key <> attr_name (idx + i)) ->
            val' !! key = val !! key)
      /\ (forall i r,
            l !! i = Some r ->
            exists parsed,
              dt_util.parse_datetime (AddedDate r) = Some parsed
              /\ val' !! attr_name (idx + i) = Some (attr_value r parsed)).
Proof.
  induction l as [|value rest IH]; intros idx val Hall.
  - exists val. split; [reflexivity|]. split; [done|].
    intros i r Hi. by rewrite lookup_nil in Hi.
  - inversion Hall as [|? ? [parsed Hp] Hrest]; subst.
    cbn [Sensor.attributes_loop]. rewrite Hp.
    destruct (IH (S idx) (<[attr_name idx := attr_value value parsed]> val)
                Hrest) as (val' & Hrun & Hframe & Hnew).
    exists val'. split; [exact Hrun|]. split.
    + intros key Hkey. rewrite Hframe.
      * apply lookup_insert_ne. intros Heq.
        apply (Hkey 0); [cbn; lia|]. by rewrite Nat.add_0_r.
      * intros i Hi. replace (S idx + i) with (idx + S i) by lia.
        apply Hkey. cbn. lia.
    + intros [|i] r Hi.
      * injection Hi as <-. exists parsed. split; [done|].
        rewrite Nat.add_0_r, Hframe; [apply lookup_insert_eq|].
        intros i _ Heq. apply attr_name_inj in Heq. lia.
      * destruct (Hnew i r Hi) as (p & Hpr & Hv).
        exists p. split; [done|].
        by replace (idx + S i) with (S idx + i) by lia.
Qed.

End Attributes.

Lemma acme_attribute (val : gmap string string) :
  Sensor.attributes_loop 0 0
    [{| Title := "Acme"; AddedDate := "2021-06-01T12:00:00Z" |}] val
  = Return (<["breach 1" := "Acme 2021-06-01 12:00:00"]> val).
Proof.
  cbn [Sensor.attributes_loop AddedDate Title].
  assert (dt_util.parse_datetime "2021-06-01T12:00:00Z"
          = Some {| dt_util.year := 2021; dt_util.month := 6;
                    dt_util.day := 1; dt_util.hour := 12;
                    dt_util.minute := 0; dt_util.second := 0;
                    dt_util.tzinfo := Some 0%Z |}) as ->
    by (vm_compute; reflexivity).
  assert ("breach " +:+ pretty (0 + 1) = "breach 1") as ->
    by (vm_compute; reflexivity).
  match goal with
  | |- context [<[_ := ?v]> val] =>
      assert (v = "Acme 2021-06-01 12:00:00") as ->
        by (vm_compute; reflexivity)
  end.
  reflexivity.
Qed.

(** C8: in a local zone [local] seconds east of UTC, the attributes of a
    sensor whose email has no cache entry are the attribution alone.  With a
    cache entry whose records carry parseable timestamps, the attributes
    hold the attribution, and under ["breach " ++ (i + 1)] the title of the
    record at 0-based position [i], a space, and its timestamp converted to
    the local zone and printed as year-month-day hour:minute:second with
    leading zeros; no other key is present.  In a zone at UTC+0 the record
    "Acme" added at 2021-06-01T12:00:00Z gives
    [breach 1 = "Acme 2021-06-01 12:00:00"]. *)
Theorem attributes_of_sensor (local : Z) (self : Sensor.HaveIBeenPwnedSensor)
    (d : HaveIBeenPwnedData) :
  (data d !! Sensor._email self = None ->
   Sensor.extra_state_attributes local self d
   = Return {[ "attribution" := ATTRIBUTION ]})
  /\ (forall breaches,
        data d !! Sensor._email self = Some breaches ->
        Forall (fun r => is_Some (dt_util.parse_datetime (AddedDate r)))
          breaches ->
        exists val,
          Sensor.extra_state_attributes local self d = Return val
          /\ val !! "attribution" = Some ATTRIBUTION
          /\ (forall i r,
                breaches !! i = Some r ->
                exists parsed,
                  dt_util.parse_datetime (AddedDate r) = Some parsed
                  /\ let t := dt_util.as_local local parsed in
                     val !! ("breach " +:+ pretty (i + 1))
                     = Some (Title r +:+ " "
                             +:+ dt_util.zfill 4 (dt_util.year t) +:+ "-"
                             +:+ dt_util.zfill 2 (dt_util.month t) +:+ "-"
                             +:+ dt_util.zfill 2 (dt_util.day t) +:+ " "
                             +:+ dt_util.zfill 2 (dt_util.hour t) +:+ ":"
                             +:+ dt_util.zfill 2 (dt_util.minute t) +:+ ":"
                             +:+ dt_util.zfill 2 (dt_util.second t)))
          /\ (forall key,
                key <> "attribution" ->
                (forall i, i < length breaches ->
                   key <> "breach " +:+ pretty (i + 1)) ->
                val !! key = None))
  /\ (data d !! Sensor._email self
      = Some [{| Title := "Acme"; AddedDate := "2021-06-01T12:00:00Z" |}] ->
      Sensor.extra_state_attributes 0 self d
      = Return (<["breach 1" := "Acme 2021-06-01 12:00:00"]>
                  {[ "attribution" := ATTRIBUTION ]})).
Proof.
  unfold Sensor.extra_state_attributes. split; [|split].
  - by intros ->.
  - intros breaches -> Hall.
    destruct (attributes_loop_spec local breaches 0
                {[ ATTR_ATTRIBUTION := ATTRIBUTION ]} Hall)
      as (val & Hrun & Hframe & Hnew).
    exists val. split; [exact Hrun|]. split; [|split].
    + rewrite Hframe; [apply lookup_singleton_eq|].
      intros i _ Heq. by apply (attr_name_not_attribution i).
    + intros i r Hi. destruct (Hnew i r Hi) as (parsed & Hp & Hv).
      exists parsed. split; [exact Hp|].
      cbn zeta. rewrite <- strftime_DATE_STR_FORMAT. exact Hv.
    + intros key Hattr Hbreach. rewrite Hframe; [|exact Hbreach].
      by apply lookup_singleton_ne.
  - intros ->. apply acme_attribute.
Qed.

(** * The statements at work on a small configuration *)

Lemma example_fetcher_consistent : consistent example_fetcher.
Proof. repeat split. cbn. lia. Defined.



Lemma standard_throttle_witness :
  update_gate false 0 never_run = true
  /\ let '(_, (th1, s1)) :=
       update false 0 (Responds 404 "" None) (never_run, (example_fetcher, world0)) in
     update false 60000000 (Responds 200 "[]" (Some [])) (th1, s1)
     = (Return tt, (th1, s1)).
Proof.
  split; [reflexivity|].
  pose proof (standard_throttle never_run (example_fetcher, world0)
                0 60000000 (Responds 404 "" None) (Responds 200 "[]" (Some [])) eq_refl)
    as H.
  apply proj2, proj2 in H. revert H.
  destruct (update false 0 (Responds 404 "" None) (never_run, (example_fetcher, world0)))
    as [r1 [th1 s1]].
  intros H. apply (proj1 (proj2 H)). reflexivity.
Defined.

Lemma forced_throttle_witness :
  update_gate true 0 never_run = true
  /\ let '(_, (th1, s1)) :=
       update_no_throttle 0 (Responds 429 "" None)
         (never_run, (example_fetcher, world0)) in
     update_no_throttle 3000000 (Responds 200 "[]" (Some [])) (th1, s1)
     = (Return tt, (th1, announced s1)).
Proof.
  split; [reflexivity|].
  pose proof (forced_throttle never_run (example_fetcher, world0)
                0 3000000 (Responds 429 "" None)
                (Responds 200 "[]" (Some [])) eq_refl)
    as H.
  apply proj2, proj2, proj2 in H. revert H.
  destruct (update_no_throttle 0 (Responds 429 "" None)
              (never_run, (example_fetcher, world0)))
    as [r1 [th1 s1]].
  intros H. apply (proj1 (proj2 H)). reflexivity.
Defined.

Lemma not_found_caches_empty_witness :
  consistent example_cached
  /\ let '(r, (d', _)) :=
       update_undecorated (Responds HTTPStatus_NOT_FOUND "" None) (example_cached, world0) in
     r = Return tt
     /\ data d' !! "b@x.com" = Some []
     /\ _current_index d' = 0
     /\ Sensor.native_value (Sensor.refresh (Sensor.__init__ "b@x.com") d')
        = Some 0.
Proof.
  assert (Hc : consistent example_cached)
    by (apply cached_consistent, example_fetcher_consistent).
  split; [exact Hc|].
  pose proof (not_found_caches_empty example_cached world0 "" None Hc) as H.
  revert H.
  destruct (update_undecorated (Responds HTTPStatus_NOT_FOUND "" None) (example_cached, world0))
    as [r [d' w']].
  intros (Hr & _ & Hd & Hi & Hs).
  change (_email example_cached) with "b@x.com" in Hd.
  split; [exact Hr|]. split; [exact Hd|]. split; [exact Hi|].
  exact (proj1 (Hs (Sensor.__init__ "b@x.com") eq_refl)).
Defined.

Lemma other_status_changes_nothing_witness :
  429 <> HTTPStatus_OK
  /\ 429 <> HTTPStatus_NOT_FOUND
  /\ let '(r, (d', _)) :=
       update_undecorated (Responds 429 "" None) (example_cached, world0) in
     r = Return tt /\ d' = example_cached.
Proof.
  assert (H200 : 429 <> HTTPStatus_OK) by discriminate.
  assert (H404 : 429 <> HTTPStatus_NOT_FOUND) by discriminate.
  split; [exact H200|]. split; [exact H404|].
  pose proof (other_status_changes_nothing example_cached world0 429 "" None
                H200 H404) as H.
  revert H.
  destruct (update_undecorated (Responds 429 "" None) (example_cached, world0))
    as [r [d' w']].
  intros (Hr & Hd & _). by split.
Defined.

Lemma ok_caches_sorted_witness :
  consistent example_fetcher
  /\ let '(r, (d', _)) :=
       update_undecorated (Responds HTTPStatus_OK "" (Some [old_forum; acme]))
         (example_fetcher, world0) in
     r = Return tt
     /\ data d' !! "b@x.com" = Some [acme; old_forum]
     /\ _current_index d' = 0.
Proof.
  split; [exact example_fetcher_consistent|].
  pose proof (ok_caches_sorted example_fetcher world0 "" [old_forum; acme]
                example_fetcher_consistent) as H.
  revert H.
  destruct (update_undecorated (Responds HTTPStatus_OK "" (Some [old_forum; acme]))
              (example_fetcher, world0))
    as [r [d' w']].
  intros (Hr & _ & _ & Hd & _ & _ & Hi & _).
  change (_email example_fetcher) with "b@x.com" in Hd.
  change (sorted_reverse AddedDate [old_forum; acme])
    with [acme; old_forum] in Hd.
  split; [exact Hr|]. split; [exact Hd|exact Hi].
Defined.

Lemma attributes_of_sensor_witness :
  data example_cached !! "a@x.com" = None
  /\ Sensor.extra_state_attributes 7200 (Sensor.__init__ "a@x.com")
       example_cached
     = Return {[ "attribution" := ATTRIBUTION ]}
  /\ data example_cached !! "b@x.com" = Some [acme]
  /\ Forall (fun r => is_Some (dt_util.parse_datetime (AddedDate r))) [acme]
  /\ (exists val,
        Sensor.extra_state_attributes 7200 (Sensor.__init__ "b@x.com")
          example_cached = Return val
        /\ val !! "attribution" = Some ATTRIBUTION)
  /\ Sensor.extra_state_attributes 0 (Sensor.__init__ "b@x.com")
       example_cached
     = Return (<["breach 1" := "Acme 2021-06-01 12:00:00"]>
                 {[ "attribution" := ATTRIBUTION ]}).
Proof.
  assert (Hnone : data example_cached !! "a@x.com" = None) by reflexivity.
  assert (Hsome : data example_cached !! "b@x.com" = Some [acme])
    by reflexivity.
  assert (Hall : Forall (fun r => is_Some (dt_util.parse_datetime
                                             (AddedDate r))) [acme]).
  { constructor; [|constructor]. eexists. reflexivity. }
  split; [exact Hnone|]. split.
  { exact (proj1 (attributes_of_sensor 7200 (Sensor.__init__ "a@x.com")
                    example_cached) Hnone). }
  split; [exact Hsome|]. split; [exact Hall|]. split.
  { destruct (proj1 (proj2 (attributes_of_sensor 7200
                              (Sensor.__init__ "b@x.com") example_cached))
                [acme] Hsome Hall) as (val & Hrun & Hattr & _).
    exists val. by split. }
  exact (proj2 (proj2 (attributes_of_sensor 0 (Sensor.__init__ "b@x.com")
                         example_cached)) Hsome).
Defined.

Lemma cursor_invariant_witness :
  example_emails <> []
  /\ (exists d w1,
        __init__ example_emails "key" world0 = (Return d, w1)
        /\ _emails d = example_emails /\ _current_index d = 0
        /\ consistent d)
  /\ consistent example_fetcher
  /\ (let '(r, (d', _)) := set_next_email (example_fetcher, world0) in
      r = Return tt /\ consistent d' /\ _emails d' = example_emails)
  /\ (let '(_, (_, (d', _))) :=
        update true 0 Fails (never_run, (example_fetcher, world0)) in
      consistent d' /\ _emails d' = example_emails).
Proof.
  destruct (cursor_invariant example_emails "key" world0)
    as (Hinit & Hnext & Hupd & _ & _).
  assert (Hne : example_emails <> []) by discriminate.
  split; [exact Hne|]. split; [exact (Hinit Hne)|].
  split; [exact example_fetcher_consistent|]. split.
  - exact (Hnext example_fetcher world0 example_fetcher_consistent).
  - exact (Hupd example_fetcher world0 never_run true 0%Z Fails
             example_fetcher_consistent).
Defined.

(** The scenario of two emails answered by 200 with one breach, then 200
    with none: two forced fetches six seconds apart fill the cache for both
    emails and bring the cursor back to 0. *)
Example two_fetch_cycles :
  match __init__ example_emails "key" world0 with
  | (Return d0, w0) =>
      let '(r1, st1) :=
        update_no_throttle 0 (Responds 200 "" (Some [acme]))
          (never_run, (d0, w0)) in
      let '(r2, (_, (d2, w2))) :=
        update_no_throttle 6000000 (Responds 200 "" (Some [])) st1 in
      r1 = Return tt /\ r2 = Return tt
      /\ data d2 !! "a@x.com" = Some [acme]
      /\ data d2 !! "b@x.com" = Some []
      /\ _current_index d2 = 0 /\ _email d2 = "a@x.com"
      /\ length (sent w2) = 2
  | _ => False
  end.
Proof. vm_compute. repeat split. Qed.

(** * Further properties of the component *)

(** ** What a fetch leaves alone *)

Lemma set_next_email_frame (d : HaveIBeenPwnedData) (w : world) :
  data (fst (snd (set_next_email (d, w)))) = data d
  /\ _emails (fst (snd (set_next_email (d, w)))) = _emails d
  /\ _api_key (fst (snd (set_next_email (d, w)))) = _api_key d
  /\ _email_count (fst (snd (set_next_email (d, w)))) = _email_count d.
Proof.
  unfold set_next_email, bind, self_, logger, lift_fst, lift_snd, py_mod,
    set__current_index, set__email, subscript, get, modify, ret, raise,
    _LOGGER.
  cbn -[Nat.modulo].
  destruct (_email_count d) eqn:Hk; cbn -[Nat.modulo]; [done|].
  by destruct (_emails d !! _).
Qed.

Lemma set_next_email_log (d : HaveIBeenPwnedData) (w : world) :
  log (snd (snd (set_next_email (d, w))))
  = entry DEBUG "Setting the next email to look up email: %s"
      [ArgStr (_email d)] :: log w.
Proof.
  unfold set_next_email, bind, self_, logger, lift_fst, lift_snd, py_mod,
    set__current_index, set__email, subscript, get, modify, ret, raise,
    _LOGGER.
  cbn -[Nat.modulo].
  destruct (_email_count d); [reflexivity|].
  cbn -[Nat.modulo]. by destruct (_emails d !! _).
Qed.

(** Splits a goal about one run of the body into the five ways it can
    go. *)
Ltac body_cases net :=
  let st := fresh "st" in
  let body := fresh "body" in
  let dec := fresh "dec" in
  destruct net as [|st body dec];
  [ rewrite update_undecorated_fails
  | destruct (decide (st = HTTPStatus_OK)) as [->|?];
    [ destruct dec as [?|];
      [ rewrite update_undecorated_ok
      | rewrite update_undecorated_undecodable ]
    | destruct (decide (st = HTTPStatus_NOT_FOUND)) as [->|?];
      [ rewrite update_undecorated_not_found
      | rewrite update_undecorated_other by done ] ] ].

(** The cache after one run of the body: untouched, or one value stored
    under the current email. *)
Lemma body_cache (d : HaveIBeenPwnedData) (w : world) (net : http_outcome) :
  (data (fst (snd (update_undecorated net (d, w)))) = data d
   \/ (advances net = true
       /\ exists v, data (fst (snd (update_undecorated net (d, w))))
                    = <[_email d := v]> (data d)))
  /\ _emails (fst (snd (update_undecorated net (d, w)))) = _emails d
  /\ _api_key (fst (snd (update_undecorated net (d, w)))) = _api_key d
  /\ _email_count (fst (snd (update_undecorated net (d, w))))
     = _email_count d.
Proof.
  body_cases net.
  - by split; [left|].
  - destruct (set_next_email_frame
                (cached d (_email d) (sorted_reverse AddedDate l))
                (logged (entry DEBUG "Setting to the next email: %s"
                           [ArgStr (_email d)])
                   (logged (entry DEBUG "The returned text data: %s"
                              [ArgStr body])
                      (logged (entry DEBUG "The returned JSON data: %s"
                                 [ArgJson l])
                         (logged (entry DEBUG "Response: %s" [ArgStr body])
                            (logged (entry DEBUG
                                       "HTTP Status OK fetching data for %s"
                                       [ArgStr (_email d)])
                               (requested d w)))))))
      as (-> & -> & -> & ->).
    split; [right|done]. split; [done|]. by eexists.
  - by split; [left|].
  - destruct (set_next_email_frame
                (cached d (_email d) [])
                (logged (entry DEBUG
                           "HTTP Status Not Found fetching data for %s"
                           [ArgStr (_email d)]) (requested d w)))
      as (-> & -> & -> & ->).
    split; [right|done]. split; [done|]. by eexists.
  - by split; [left|].
Qed.

(** X1: whatever the network answers and whether the call returns or
    raises, a call of [update] changes no cache entry other than the one of
    the current email, never removes an entry, and changes nothing in the
    cache unless the answer is HTTP 200 or 404. *)
Theorem fetch_touches_one_entry (d : HaveIBeenPwnedData) (w : world)
    (th : throttle_state) (no_throttle : bool) (now : Z)
    (net : http_outcome) (key : string) :
  let d' := fst (snd (snd (update no_throttle now net (th, (d, w))))) in
  (key <> _email d -> data d' !! key = data d !! key)
  /\ (is_Some (data d !! key) -> is_Some (data d' !! key))
  /\ (advances net = false -> data d' = data d).
Proof.
  cbn zeta. rewrite update_cases.
  destruct (update_gate no_throttle now th); [|done]. cbn [fst snd].
  destruct (body_cache d w net) as ([-> | (Hadv & v & ->)] & _); [done|].
  split; [|split].
  - intros Hne. by apply lookup_insert_ne.
  - intros Hsome. destruct (decide (key = _email d)) as [->|Hne].
    + rewrite lookup_insert_eq. by eexists.
    + by rewrite lookup_insert_ne.
  - intros Hno. congruence.
Qed.

(** X2: no call of [update] changes the configured list of emails, the
    number of emails or the API key, on any fetcher and whatever happens. *)
Theorem configuration_is_kept (d : HaveIBeenPwnedData) (w : world)
    (th : throttle_state) (no_throttle : bool) (now : Z)
    (net : http_outcome) :
  let d' := fst (snd (snd (update no_throttle now net (th, (d, w))))) in
  _emails d' = _emails d
  /\ _email_count d' = _email_count d
  /\ _api_key d' = _api_key d.
Proof.
  cbn zeta. rewrite update_cases.
  destruct (update_gate no_throttle now th); [|done]. cbn [fst snd].
  by destruct (body_cache d w net) as (_ & -> & -> & ->).
Qed.

(** ** Failures *)

(** X3: a fetch answered by HTTP 200 with a body that does not decode
    raises [JSONDecodeError] from [req.json()]: the request has been sent,
    nothing is cached, the cursor stays, and no error-level record is
    written. *)
Theorem undecodable_body_raises (d : HaveIBeenPwnedData) (w : world)
    (body : string) :
  let '(r, (d', w')) :=
    update_undecorated (Responds HTTPStatus_OK body None) (d, w) in
  r = Raise JSONDecodeError
  /\ d' = d
  /\ sent w' = expected_request d :: sent w
  /\ errors w' = errors w.
Proof. by rewrite update_undecorated_undecodable. Qed.

(** X4: one run of the body writes exactly one error-level record when the
    request raises or the status is neither 200 nor 404, and none after a
    200 or a 404, on any fetcher. *)
Theorem errors_logged (d : HaveIBeenPwnedData) (w : world)
    (net : http_outcome) :
  errors (snd (snd (update_undecorated net (d, w))))
  = errors w + (if advances net then 0 else 1).
Proof.
  unfold errors.
  body_cases net; cbn -[set_next_email]; rewrite ?set_next_email_log; cbn;
    repeat case_bool_decide; try done; cbn; lia.
Qed.

(** X5: whenever [requests.get] returns, the fetch writes a debug record
    whose argument is the headers of the request, and these carry the API
    key. *)
Theorem api_key_reaches_the_log (d : HaveIBeenPwnedData) (w : world)
    (st : nat) (body : string) (dec : option (list BreachRecord)) :
  exists rq,
    In (entry DEBUG "Request headers are %s" [ArgRequestHeaders rq])
       (log (snd (snd (update_undecorated (Responds st body dec) (d, w)))))
    /\ In ("hibp-api-key", _api_key d) (req_headers rq).
Proof.
  exists (expected_request d). split; [|right; by left].
  destruct (decide (st = HTTPStatus_OK)) as [->|?];
    [ destruct dec as [j|];
      [ rewrite update_undecorated_ok
      | rewrite update_undecorated_undecodable ]
    | destruct (decide (st = HTTPStatus_NOT_FOUND)) as [->|?];
      [ rewrite update_undecorated_not_found
      | rewrite update_undecorated_other by done ] ];
    rewrite ?set_next_email_log; cbn; tauto.
Qed.

(** ** Order among records of equal date *)

Lemma ltb_irrefl (s : string) : String.ltb s s = false.
Proof.
  unfold String.ltb. pose proof (String.compare_antisym s s) as H.
  by destruct (String.compare s s).
Qed.

Lemma insert_reverse_filter {A} (key : A -> string) (k : string) (x : A)
    (l : list A) :
  filter (fun r => key r = k) (insert_reverse key x l)
  = filter (fun r => key r = k) (x :: l).
Proof.
  induction l as [|y l IH]; [reflexivity|]. cbn [insert_reverse].
  destruct (String.ltb (key x) (key y)) eqn:Hlt; [|reflexivity].
  rewrite (filter_cons _ y), IH, !(filter_cons _ x), (filter_cons _ y).
  destruct (decide (key x = k)) as [Hx|Hx]; [|reflexivity].
  destruct (decide (key y = k)) as [Hy|Hy]; [|reflexivity].
  rewrite Hx, Hy, ltb_irrefl in Hlt. discriminate.
Qed.

(** X6: the sort applied to a 200 answer is stable: for every date, the
    records of that [AddedDate] come out in the order in which the answer
    listed them. *)
Theorem sorted_reverse_stable (j : list BreachRecord) (date : string) :
  filter (fun r => AddedDate r = date) (sorted_reverse AddedDate j)
  = filter (fun r => AddedDate r = date) j.
Proof.
  induction j as [|x j IH]; [reflexivity|].
  unfold sorted_reverse in *. cbn [foldr].
  by rewrite insert_reverse_filter, !filter_cons, IH.
Qed.

(** ** Going round the emails *)

Lemma fetch_stores (d : HaveIBeenPwnedData) (w : world) (net : http_outcome) :
  consistent d -> stores_result net ->
  exists e v w',
    _emails d !! ((_current_index d + 1) mod _email_count d) = Some e
    /\ update_undecorated net (d, w)
       = (Return tt,
          (moved (cached d (_email d) v)
             ((_current_index d + 1) mod _email_count d) e, w')).
Proof.
  intros Hc [Hadv Hdec]. destruct (consistent_next d Hc) as [e He].
  assert (Hk : _email_count d <> 0) by (destruct Hc as (_ & ? & _); lia).
  exists e. destruct net as [|st body dec]; [discriminate|].
  cbn in Hadv. apply orb_true_iff in Hadv as [Hst|Hst];
    apply bool_decide_eq_true_1 in Hst; subst st.
  - destruct dec as [j|]; [|done].
    exists (sorted_reverse AddedDate j). eexists. split; [done|].
    rewrite update_undecorated_ok. by rewrite (set_next_email_run _ _ e).
  - exists []. eexists. split; [done|].
    rewrite update_undecorated_not_found.
    by rewrite (set_next_email_run _ _ e).
Qed.

Lemma fetches_go_round (nets : list http_outcome) :
  forall (d : HaveIBeenPwnedData) (w : world),
    consistent d -> Forall stores_result nets ->
    exists d' w',
      fetches nets (d, w) = (Return tt, (d', w'))
      /\ consistent d' /\ _emails d' = _emails d
      /\ _current_index d'
         = (_current_index d + length nets) mod length (_emails d)
      /\ (forall key, is_Some (data d !! key) -> is_Some (data d' !! key))
      /\ (forall i e,
            i < length nets ->
            _emails d !! ((_current_index d + i) mod length (_emails d))
            = Some e ->
            is_Some (data d' !! e)).
Proof.
  induction nets as [|net rest IH]; intros d w Hc Hall.
  - exists d, w. destruct Hc as (Hlen & Hlt & Hcur).
    split; [reflexivity|]. split; [done|]. split; [done|].
    split; [|split; [done|intros; cbn in *; lia]].
    cbn. rewrite Nat.add_0_r, Nat.mod_small; lia.
  - inversion Hall as [|? ? Hnet Hrest]; subst.
    destruct (fetch_stores d w net Hc Hnet) as (e & v & w1 & He & Hrun).
    set (d1 := moved (cached d (_email d) v)
                 ((_current_index d + 1) mod _email_count d) e) in *.
    assert (Hc1 : consistent d1).
    { by apply (moved_consistent (cached d _ _));
        [apply cached_consistent|]. }
    destruct (IH d1 w1 Hc1 Hrest)
      as (d' & w' & Hrun' & Hc' & Hem & Hcur' & Hkeep & Hcov).
    destruct Hc as (Hlen & Hlt & Hcur).
    assert (Hk : length (_emails d) <> 0) by lia.
    exists d', w'. split.
    { cbn [fetches]. unfold bind. by rewrite Hrun. }
    split; [done|]. split; [done|]. split; [|split].
    + rewrite Hcur'. cbn [d1 moved cached _current_index _emails length].
      rewrite Hlen, Nat.Div0.add_mod_idemp_l. f_equal. lia.
    + intros key Hkey. apply Hkeep. cbn [d1 moved cached data].
      destruct (decide (key = _email d)) as [->|Hne].
      * rewrite lookup_insert_eq. by eexists.
      * by rewrite lookup_insert_ne.
    + intros [|i] e' Hi He'.
      * rewrite Nat.add_0_r, Nat.mod_small in He' by lia.
        assert (e' = _email d) as -> by congruence.
        apply Hkeep. cbn [d1 moved cached data].
        rewrite lookup_insert_eq. by eexists.
      * apply (Hcov i e'); [cbn in Hi; lia|].
        cbn [d1 moved cached _current_index _emails].
        rewrite Hlen, Nat.Div0.add_mod_idemp_l.
        by replace (_current_index d + 1 + i)
          with (_current_index d + S i) by lia.
Qed.

(** X7: on a fetcher that satisfies the invariant, [n] fetches in a row
    that are each answered by HTTP 404 or by a decodable HTTP 200 all return
    and leave the cursor [n] places further, counted modulo the number of
    emails. *)
Theorem cursor_after_fetches (d : HaveIBeenPwnedData) (w : world)
    (nets : list http_outcome)
    (Hc : consistent d) (Hall : Forall stores_result nets) :
  let '(r, (d', _)) := fetches nets (d, w) in
  r = Return tt
  /\ _current_index d'
     = (_current_index d + length nets) mod length (_emails d).
Proof.
  by destruct (fetches_go_round nets d w Hc Hall)
    as (d' & w' & -> & _ & _ & Hcur & _).
Qed.

(** X8: on a fetcher that satisfies the invariant, as many such fetches in
    a row as there are emails bring the cursor back to where it was and
    leave a cache entry for every configured email. *)
Theorem full_round_covers_every_email (d : HaveIBeenPwnedData) (w : world)
    (nets : list http_outcome)
    (Hc : consistent d) (Hall : Forall stores_result nets)
    (Hlen : length nets = length (_emails d)) :
  let '(r, (d', _)) := fetches nets (d, w) in
  r = Return tt
  /\ _current_index d' = _current_index d
  /\ forall email, In email (_emails d) -> is_Some (data d' !! email).
Proof.
  destruct (fetches_go_round nets d w Hc Hall)
    as (d' & w' & -> & _ & _ & Hcur & _ & Hcov).
  destruct Hc as (Hcount & Hlt & _).
  assert (Hk : length (_emails d) <> 0) by lia.
  split; [done|]. split.
  - rewrite Hcur, Hlen.
    replace (_current_index d + length (_emails d))
      with (_current_index d + 1 * length (_emails d)) by lia.
    rewrite Nat.Div0.mod_add. apply Nat.mod_small. lia.
  - intros email Hin. apply list_elem_of_In, list_elem_of_lookup in Hin.
    destruct Hin as [p Hp].
    pose proof (lookup_lt_Some _ _ _ Hp) as Hpk.
    apply (Hcov ((p + length (_emails d) - _current_index d)
                 mod length (_emails d)) email).
    + rewrite Hlen. by apply Nat.mod_upper_bound.
    + rewrite Nat.Div0.add_mod_idemp_r.
      replace (_current_index d
               + (p + length (_emails d) - _current_index d))
        with (p + 1 * length (_emails d)) by lia.
      rewrite Nat.Div0.mod_add, Nat.mod_small; [done|lia].
Qed.

(** ** The sensor *)

(** X9: a sensor's [update] never changes the sensor's email and never
    takes a value away: once the state is known it stays known.  When the
    fetch raises, the sensor is left exactly as it was; when it returns,
    the state is the length of the cache entry of the sensor's email if
    there is one, and the sensor is unchanged if there is none. *)
Theorem sensor_update_keeps_known_values (self : Sensor.HaveIBeenPwnedSensor)
    (th : throttle_state) (d : HaveIBeenPwnedData) (w : world) (now : Z)
    (net : http_outcome) :
  let '(r, (self', (_, (d', _)))) :=
    Sensor.update now net (self, (th, (d, w))) in
  Sensor._email self' = Sensor._email self
  /\ (is_Some (Sensor.native_value self) ->
      is_Some (Sensor.native_value self'))
  /\ match r with
     | Raise _ => self' = self
     | Return _ =>
         match data d' !! Sensor._email self with
         | Some breaches => Sensor.native_value self' = Some (length breaches)
         | None => self' = self
         end
     end.
Proof.
  unfold Sensor.update, bind, lift_snd, modify. cbn [fst snd].
  destruct (update false now net (th, (d, w))) as [[[]|e] [th' [d' w']]];
    cbn [fst snd]; [|done].
  unfold Sensor.refresh, Sensor.native_value.
  destruct (data d' !! Sensor._email self) as [breaches|]; [|done].
  cbn. split; [done|]. split; [|done]. intros _. by eexists.
Qed.

(** X10: when a sensor's [update] is let through by the throttle, the
    fetcher's current email is the sensor's own and the answer is HTTP 200
    with a body that decodes to [j], the sensor's value afterwards is the
    number of records in [j]. *)
Theorem sensor_counts_the_answer (self : Sensor.HaveIBeenPwnedSensor)
    (th : throttle_state) (d : HaveIBeenPwnedData) (w : world) (now : Z)
    (body : string) (j : list BreachRecord)
    (Hc : consistent d) (Hown : Sensor._email self = _email d)
    (Hopen : update_gate false now th = true) :
  let '(r, (self', _)) :=
    Sensor.update now (Responds HTTPStatus_OK body (Some j))
      (self, (th, (d, w))) in
  r = Return tt /\ Sensor.native_value self' = Some (length j).
Proof.
  unfold Sensor.update, bind, lift_snd, modify. cbn [fst snd].
  rewrite (update_let_through false now _ th (d, w) Hopen).
  destruct (fetch_stores d w (Responds HTTPStatus_OK body (Some j)) Hc)
    as (e & v & w' & He & Hrun); [by split|].
  pose proof Hrun as Hv. rewrite update_undecorated_ok in Hv.
  destruct (consistent_next d Hc) as [e' He'].
  rewrite (set_next_email_run _ _ e') in Hv;
    [|destruct Hc as (_ & ? & _); cbn; lia|done].
  injection Hv as Hv _ _.
  rewrite Hrun. cbn [fst snd]. split; [done|].
  unfold Sensor.native_value, Sensor.refresh. cbn [moved cached data].
  rewrite Hown, lookup_insert_eq. cbn.
  apply (f_equal (fun m => m !! _email d)) in Hv.
  rewrite !lookup_insert_eq in Hv. injection Hv as <-.
  by rewrite sorted_reverse_length.
Qed.

(** ** The start-up fetch of a sensor *)

Lemma update_no_throttle_cases (now : Z) (net : http_outcome)
    (th : throttle_state) (d : HaveIBeenPwnedData) (w : world) :
  update_no_throttle now net (th, (d, w))
  = if update_gate true now th
    then (fst (update_undecorated net (announced (d, w))),
          (mark_run true now th,
           snd (update_undecorated net (announced (d, w)))))
    else (Return tt, (th, announced (d, w))).
Proof. by rewrite update_no_throttle_announces, update_cases. Qed.


(** X11: when the request of a sensor's start-up fetch raises, the
    exception leaves [update_nothrottle] before anything is scheduled: no
    retry timer is registered, no state write is asked for and the sensor
    is unchanged. *)
Theorem startup_failure_schedules_nothing (h : hass_state)
    (self : Sensor.HaveIBeenPwnedSensor) (th : throttle_state)
    (d : HaveIBeenPwnedData) (w : world) (now later : Z)
    (Hopen : update_gate true now th = true) :
  let '(r, (h', (self', _))) :=
    Sensor.update_nothrottle now later Fails (h, (self, (th, (d, w)))) in
  r = Raise (UnboundLocalError "req") /\ h' = h /\ self' = self.
Proof.
  unfold Sensor.update_nothrottle, bind, lift_snd. cbn [fst snd].
  rewrite update_no_throttle_cases, Hopen.
  unfold announced. cbn [fst snd]. by rewrite update_undecorated_fails.
Qed.

(** X12: when a sensor's start-up fetch is let through on a fetcher whose
    current email is the sensor's own and the answer is HTTP 404 or a
    decodable HTTP 200, [update_nothrottle] returns with the sensor's state
    set to the length of the new cache entry, asks for one state write and
    registers no retry timer. *)
Theorem startup_publishes_own_result (h : hass_state)
    (self : Sensor.HaveIBeenPwnedSensor) (th : throttle_state)
    (d : HaveIBeenPwnedData) (w : world) (now later : Z)
    (net : http_outcome)
    (Hc : consistent d) (Hown : Sensor._email self = _email d)
    (Hopen : update_gate true now th = true) (Hnet : stores_result net) :
  let '(r, (h', (self', (_, (d', _))))) :=
    Sensor.update_nothrottle now later net (h, (self, (th, (d, w)))) in
  r = Return tt
  /\ timers h' = timers h
  /\ state_writes h' = Sensor._email self :: state_writes h
  /\ exists breaches,
       data d' !! Sensor._email self = Some breaches
       /\ Sensor.native_value self' = Some (length breaches).
Proof.
  unfold Sensor.update_nothrottle, bind, lift_snd. cbn [fst snd].
  rewrite update_no_throttle_cases, Hopen.
  unfold announced. cbn [fst snd].
  destruct (fetch_stores d
              (logged (entry DEBUG "Getting data for a specific email: %s"
                         [ArgStr (_email d)]) w) net Hc Hnet)
    as (e & v & w' & He & ->).
  cbn [fst snd get moved cached data].
  rewrite Hown, lookup_insert_eq.
  unfold lift_fst, modify, schedule_update_ha_state. cbn.
  do 3 (split; [done|]). exists v. by rewrite lookup_insert_eq.
Qed.


(** ** Setting up the platform *)

Lemma sensors_of_emails (emails : list string) :
  map Sensor._email (map Sensor.__init__ emails) = emails.
Proof. induction emails as [|e l IH]; cbn; [done|by rewrite IH]. Qed.

(** X14: on an empty list of emails [setup_platform] raises [IndexError]
    and creates nothing.  On a non-empty list it creates a fetcher that
    satisfies the invariant, whose current email is the first one and whose
    cache is empty, and one sensor per email, in the order of the list;
    every sensor starts with an unknown value and with the attribution as
    its only attribute. *)
Theorem setup_platform_entities (emails : list string) (api_key : string)
    (w : world) (local : Z) :
  match emails with
  | [] => fst (setup_platform emails api_key w) = Raise IndexError
  | first :: _ =>
      exists d sensors w',
        setup_platform emails api_key w = (Return (d, sensors), w')
        /\ consistent d /\ _email d = first /\ data d = ∅
        /\ map Sensor._email sensors = emails
        /\ Forall (fun s =>
                     Sensor.native_value s = None
                     /\ Sensor.extra_state_attributes local s d
                        = Return {[ "attribution" := ATTRIBUTION ]})
             sensors
  end.
Proof.
  destruct emails as [|first rest]; [reflexivity|].
  eexists _, _, _. split; [reflexivity|].
  split; [repeat split; cbn; lia|]. split; [reflexivity|].
  split; [reflexivity|]. split; [apply sensors_of_emails|].
  apply Forall_forall. intros s Hs. split.
  - apply list_elem_of_In, in_map_iff in Hs as (e & <- & _). reflexivity.
  - unfold Sensor.extra_state_attributes. cbn [data].
    by rewrite lookup_empty.
Qed.

(** ** Counting attributes *)

Lemma attributes_loop_size (local : Z) (l : list BreachRecord) :
  forall (idx : nat) (val : gmap string string),
    Forall (fun r => is_Some (dt_util.parse_datetime (AddedDate r))) l ->
    (forall i, i < length l ->
       val !! ("breach " +:+ pretty (idx + i + 1)) = None) ->
    exists val',
      Sensor.attributes_loop local idx l val = Return val'
      /\ size val' = size val + length l.
Proof.
  induction l as [|value rest IH]; intros idx val Hall Hfresh.
  - exists val. split; [reflexivity|]. cbn. lia.
  - inversion Hall as [|? ? [parsed Hp] Hrest]; subst.
    cbn [Sensor.attributes_loop]. rewrite Hp.
    match goal with
    | |- context [Sensor.attributes_loop _ _ _ (<[?k := ?v]> val)] =>
        destruct (IH (S idx) (<[k := v]> val) Hrest)
          as (val' & Hrun & Hsize)
    end.
    + intros i Hi. rewrite lookup_insert_ne.
      * replace (S idx + i + 1) with (idx + S i + 1) by lia.
        apply Hfresh. cbn. lia.
      * intros Heq. apply attr_name_inj in Heq. lia.
    + exists val'. split; [exact Hrun|].
      rewrite Hsize, map_size_insert_None.
      * cbn. lia.
      * specialize (Hfresh 0). rewrite Nat.add_0_r in Hfresh.
        apply Hfresh. cbn. lia.
Qed.

(** X15: when the cache holds [n] records for a sensor's email and their
    timestamps parse, the sensor has exactly [n + 1] attributes: the
    attribution and one per record, no two records sharing a key. *)
Theorem one_attribute_per_breach (local : Z)
    (self : Sensor.HaveIBeenPwnedSensor) (d : HaveIBeenPwnedData)
    (breaches : list BreachRecord)
    (Hentry : data d !! Sensor._email self = Some breaches)
    (Hall : Forall (fun r => is_Some (dt_util.parse_datetime (AddedDate r)))
              breaches) :
  exists val,
    Sensor.extra_state_attributes local self d = Return val
    /\ size val = S (length breaches).
Proof.
  unfold Sensor.extra_state_attributes. rewrite Hentry.
  destruct (attributes_loop_size local breaches 0
              {[ ATTR_ATTRIBUTION := ATTRIBUTION ]} Hall)
    as (val & Hrun & Hsize).
  - intros i _. apply lookup_singleton_ne. intros Heq.
    by apply (attr_name_not_attribution i).
  - exists val. split; [exact Hrun|].
    by rewrite Hsize, map_size_singleton.
Qed.

(** * The further properties on the small configuration *)

Lemma no_breach_stores : stores_result no_breach.
Proof. split; [reflexivity|discriminate]. Defined.

Lemma two_breaches_stores : stores_result two_breaches.
Proof. split; [reflexivity|exact I]. Defined.

Lemma fetch_touches_one_entry_witness :
  "a@x.com" <> _email example_cached
  /\ data (fst (snd (snd (update false 0 no_breach
                            (never_run, (example_cached, world0))))))
       !! "a@x.com"
     = data example_cached !! "a@x.com".
Proof.
  assert (Hne : "a@x.com" <> _email example_cached) by discriminate.
  split; [exact Hne|].
  exact (proj1 (fetch_touches_one_entry example_cached world0 never_run
                  false 0 no_breach "a@x.com") Hne).
Defined.

Lemma cursor_after_fetches_witness :
  consistent example_fetcher
  /\ Forall stores_result [no_breach; two_breaches; no_breach]
  /\ let '(r, (d', _)) :=
       fetches [no_breach; two_breaches; no_breach]
         (example_fetcher, world0) in
     r = Return tt /\ _current_index d' = 0.
Proof.
  assert (Hall : Forall stores_result [no_breach; two_breaches; no_breach]).
  { repeat constructor; (reflexivity || discriminate). }
  split; [exact example_fetcher_consistent|]. split; [exact Hall|].
  exact (cursor_after_fetches example_fetcher world0
           [no_breach; two_breaches; no_breach]
           example_fetcher_consistent Hall).
Defined.

Lemma full_round_covers_every_email_witness :
  consistent example_fetcher
  /\ Forall stores_result [no_breach; two_breaches]
  /\ length [no_breach; two_breaches] = length (_emails example_fetcher)
  /\ let '(r, (d', _)) :=
       fetches [no_breach; two_breaches] (example_fetcher, world0) in
     r = Return tt
     /\ _current_index d' = 1
     /\ forall email, In email example_emails -> is_Some (data d' !! email).
Proof.
  assert (Hall : Forall stores_result [no_breach; two_breaches]).
  { repeat constructor; (reflexivity || discriminate). }
  split; [exact example_fetcher_consistent|]. split; [exact Hall|].
  split; [reflexivity|].
  exact (full_round_covers_every_email example_fetcher world0
           [no_breach; two_breaches] example_fetcher_consistent Hall
           eq_refl).
Defined.

Lemma sensor_update_keeps_known_values_witness :
  is_Some (Sensor.native_value example_sensor)
  /\ let '(_, (self', _)) :=
       Sensor.update 0 Fails
         (example_sensor, (never_run, (example_cached, world0))) in
     is_Some (Sensor.native_value self').
Proof.
  assert (Hknown : is_Some (Sensor.native_value example_sensor))
    by (eexists; reflexivity).
  split; [exact Hknown|].
  pose proof (sensor_update_keeps_known_values example_sensor never_run
                example_cached world0 0 Fails) as H.
  revert H.
  destruct (Sensor.update 0 Fails
              (example_sensor, (never_run, (example_cached, world0))))
    as [r [self' [th' [d' w']]]].
  intros (_ & H & _). exact (H Hknown).
Defined.

Lemma sensor_counts_the_answer_witness :
  consistent example_fetcher
  /\ Sensor._email (Sensor.__init__ "b@x.com") = _email example_fetcher
  /\ update_gate false 0 never_run = true
  /\ let '(r, (self', _)) :=
       Sensor.update 0 (Responds HTTPStatus_OK "" (Some [old_forum; acme]))
         (Sensor.__init__ "b@x.com", (never_run, (example_fetcher, world0))) in
     r = Return tt /\ Sensor.native_value self' = Some 2.
Proof.
  split; [exact example_fetcher_consistent|]. split; [reflexivity|].
  split; [reflexivity|].
  exact (sensor_counts_the_answer (Sensor.__init__ "b@x.com") never_run
           example_fetcher world0 0 "" [old_forum; acme]
           example_fetcher_consistent eq_refl eq_refl).
Defined.

Lemma startup_failure_schedules_nothing_witness :
  update_gate true 0 never_run = true
  /\ let '(r, (h', (self', _))) :=
       Sensor.update_nothrottle 0 1 Fails
         (hass0, (example_sensor, (never_run, (example_cached, world0)))) in
     r = Raise (UnboundLocalError "req")
     /\ h' = hass0 /\ self' = example_sensor.
Proof.
  split; [reflexivity|].
  exact (startup_failure_schedules_nothing hass0 example_sensor never_run
           example_cached world0 0 1 eq_refl).
Defined.

Lemma startup_publishes_own_result_witness :
  consistent example_fetcher
  /\ Sensor._email (Sensor.__init__ "b@x.com") = _email example_fetcher
  /\ update_gate true 0 never_run = true
  /\ stores_result no_breach
  /\ let '(r, (h', (self', (_, (d', _))))) :=
       Sensor.update_nothrottle 0 1 no_breach
         (hass0, (Sensor.__init__ "b@x.com",
                  (never_run, (example_fetcher, world0)))) in
     r = Return tt
     /\ timers h' = timers hass0
     /\ state_writes h'
        = Sensor._email (Sensor.__init__ "b@x.com") :: state_writes hass0
     /\ exists breaches,
          data d' !! Sensor._email (Sensor.__init__ "b@x.com")
          = Some breaches
          /\ Sensor.native_value self' = Some (length breaches).
Proof.
  split; [exact example_fetcher_consistent|]. split; [reflexivity|].
  split; [reflexivity|]. split; [exact no_breach_stores|].
  exact (startup_publishes_own_result hass0 (Sensor.__init__ "b@x.com")
           never_run example_fetcher world0 0 1 no_breach
           example_fetcher_consistent eq_refl eq_refl no_breach_stores).
Defined.


Lemma one_attribute_per_breach_witness :
  data example_cached !! Sensor._email example_sensor = Some [acme]
  /\ Forall (fun r => is_Some (dt_util.parse_datetime (AddedDate r))) [acme]
  /\ exists val,
       Sensor.extra_state_attributes 3600 example_sensor example_cached
       = Return val
       /\ size val = 2.
Proof.
  assert (Hall : Forall (fun r => is_Some (dt_util.parse_datetime
                                             (AddedDate r))) [acme]).
  { constructor; [|constructor]. eexists. reflexivity. }
  split; [reflexivity|]. split; [exact Hall|].
  exact (one_attribute_per_breach 3600 example_sensor example_cached [acme]
           eq_refl Hall).
Defined.
